(** * PassGen Pro: a shallow embedding of the generation and ranking engine

    The development follows [PassGen.py].  Python [str] values are modelled
    by [string]; a character is an [ascii] and the case methods act on the
    ASCII letters only, which is what [str.lower], [str.upper],
    [str.capitalize], [str.title], [str.isupper], [str.islower] and
    [str.isdigit] do on ASCII text.  On text outside ASCII Python's case
    mappings differ from these (they can change the length of a string and
    are not inverse to each other); a statement that rests on more than
    the case methods being functions is stated for ASCII text, with
    [isascii] as a hypothesis, or for an arbitrary case method.
    Python [set] values are modelled by [gset string]; Python [int] by [Z].
    Where the source iterates over a set, the iteration order is a
    parameter of the model; the year read from the clock is a parameter
    as well. *)

From Stdlib Require Import ZArith Ascii String List DecimalString.
From stdpp Require Import gmap strings list sorting.

Local Open Scope string_scope.
Local Open Scope Z_scope.

(** ** Python string primitives *)

Module PyStr.

Definition code (c : ascii) : N := N_of_ascii c.

(** [c.isupper()], [c.islower()], [c.isdigit()] for a one-character string. *)
Definition isupper (c : ascii) : bool :=
  ((65 <=? code c) && (code c <=? 90))%N.

Definition islower (c : ascii) : bool :=
  ((97 <=? code c) && (code c <=? 122))%N.

Definition isdigit (c : ascii) : bool :=
  ((48 <=? code c) && (code c <=? 57))%N.

Definition lower_char (c : ascii) : ascii :=
  if isupper c then ascii_of_N (code c + 32) else c.

Definition upper_char (c : ascii) : ascii :=
  if islower c then ascii_of_N (code c - 32) else c.

Fixpoint map_chars (f : ascii -> ascii) (s : string) : string :=
  match s with
  | EmptyString => EmptyString
  | String c s' => String (f c) (map_chars f s')
  end.

(** [s.lower()] and [s.upper()] on ASCII text, character by character.
    (Outside ASCII Python's maps differ: [upper] turns [ß] into [SS] and
    [lower] can lengthen a string.) *)
Definition lower (s : string) : string := map_chars lower_char s.
Definition upper (s : string) : string := map_chars upper_char s.

(** [s.capitalize()] on ASCII text: first character upper-cased, the rest
    lower-cased.  (Outside ASCII the first character takes its title-case
    form, which can be longer: see [CaseMethod.capitalize_sharp_s].) *)
Definition capitalize (s : string) : string :=
  match s with
  | EmptyString => EmptyString
  | String c s' => String (upper_char c) (lower s')
  end.

(** [s.title()]: a letter that follows a cased letter is lower-cased, any
    other letter is upper-cased. *)
Fixpoint title_from (previous_is_cased : bool) (s : string) : string :=
  match s with
  | EmptyString => EmptyString
  | String c s' =>
      if islower c || isupper c then
        String (if previous_is_cased then lower_char c else upper_char c)
               (title_from true s')
      else String c (title_from false s')
  end.

Definition title (s : string) : string := title_from false s.

(** [len(s)] as a Python integer. *)
Definition len (s : string) : Z := Z.of_nat (String.length s).

(** [any(p(c) for c in s)]. *)
Fixpoint any_char (p : ascii -> bool) (s : string) : bool :=
  match s with
  | EmptyString => false
  | String c s' => p c || any_char p s'
  end.

(** [c in s] for a one-character string [c]. *)
Definition char_in (c : ascii) (s : string) : bool :=
  any_char (Ascii.eqb c) s.

(** [sub in s]: [sub] occurs in [s] as a contiguous substring. *)
Fixpoint contains (sub s : string) : bool :=
  String.prefix sub s ||
  match s with
  | EmptyString => false
  | String _ s' => contains sub s'
  end.

(** [s.startswith(p)]. *)
Definition startswith (p s : string) : bool := String.prefix p s.

(** [s[::-1]]. *)
Fixpoint reverse_onto (s acc : string) : string :=
  match s with
  | EmptyString => acc
  | String c s' => reverse_onto s' (String c acc)
  end.

Definition reverse (s : string) : string := reverse_onto s EmptyString.

(** [s.replace(old, new)] for one-character [old] and [new]. *)
Definition replace (old new : ascii) (s : string) : string :=
  map_chars (fun c => if Ascii.eqb c old then new else c) s.

(** [''.join(c for c in s if p(c))]. *)
Fixpoint filter_chars (p : ascii -> bool) (s : string) : string :=
  match s with
  | EmptyString => EmptyString
  | String c s' =>
      if p c then String c (filter_chars p s') else filter_chars p s'
  end.

(** [s[-n:]] for a natural [n]: the last [n] characters, the whole string
    when it is shorter. *)
Definition last_chars (n : nat) (s : string) : string :=
  String.substring (String.length s - n) n s.

(** [s[-1]] when [s] is not empty. *)
Fixpoint last_char (s : string) : option ascii :=
  match s with
  | EmptyString => None
  | String c EmptyString => Some c
  | String _ s' => last_char s'
  end.

(** [str(n)] for an integer. *)
Definition str_of_int (n : Z) : string := NilZero.string_of_int (Z.to_int n).

(** [l[:n]] for a list and an integer bound: a negative bound counts from
    the end. *)
Definition slice_to {A} (n : Z) (l : list A) : list A :=
  if 0 <=? n then take (Z.to_nat n) l
  else take (length l - Z.to_nat (- n)) l.

(** The characters of a string, in order: [for c in s]. *)
Definition chars (s : string) : list ascii := list_ascii_of_string s.

Definition of_char (c : ascii) : string := String c EmptyString.

(** [s.isascii()]: every character has a code below 128. *)
Definition isascii (s : string) : bool :=
  negb (any_char (fun c => (128 <=? code c)%N) s).

End PyStr.

(** ** Configuration *)

(** The entries of [config] read by the engine, with the defaults of
    [config.get]. *)
Record Config := mkConfig {
  min_length : Z;
  max_length : Z;
  require_upper : bool;
  require_lower : bool;
  require_digit : bool;
  require_special : bool;
  leet : bool
}.

Definition default_config : Config :=
  {| min_length := 1; max_length := 128;
     require_upper := false; require_lower := false;
     require_digit := false; require_special := false;
     leet := false |}.

(** ** PassGenPro.apply_filters *)

Module Filter.
Import PyStr.

(** The literal of the [require_special] test. *)
Definition SPECIALS : string := "!@#$%^&*()_+-=[]{}|;:,.<>?".

Definition is_special (c : ascii) : bool := char_in c SPECIALS.

(** The body of the loop: [true] when [filtered.add(password)] is
    reached, [false] when one of the [continue] statements is taken. *)
Definition keeps (cfg : Config) (password : string) : bool :=
  if negb ((min_length cfg <=? len password) && (len password <=? max_length cfg))
  then false
  else if require_upper cfg && negb (any_char isupper password) then false
  else if require_lower cfg && negb (any_char islower password) then false
  else if require_digit cfg && negb (any_char isdigit password) then false
  else if require_special cfg && negb (any_char is_special password) then false
  else true.

(** The part of the object that [apply_filters] reads and writes. *)
Record State := mkState {
  wordlist : gset string;
  stats_filtered : Z
}.

Definition apply_filters (cfg : Config) (st : State) : State :=
  let filtered := filter (fun password => keeps cfg password = true) (wordlist st) in
  {| wordlist := filtered;
     stats_filtered := Z.of_nat (size (wordlist st)) - Z.of_nat (size filtered) |}.

End Filter.

(** ** PasswordGenerator *)

Module Generator.
Import PyStr.

(** [s.add(x)] on a Python set. *)
Definition add (x : string) (s : gset string) : gset string := {[ x ]} ∪ s.

Definition COMMON_SUFFIXES : list string :=
  [ "1"; "12"; "123"; "1234"; "12345"; "123456";
    "!"; "@"; "#"; "$"; "!!"; "!@#"; "123!";
    "00"; "01"; "11"; "22"; "69"; "77"; "88"; "99";
    "2020"; "2021"; "2022"; "2023"; "2024"; "2025";
    "_"; "."; "-" ].

Definition COMMON_PREFIXES : list string :=
  [ "admin"; "user"; "test"; "demo"; "guest";
    "root"; "super"; "master"; "pass"; "pwd" ].

(** [LEET_MAP.items()], in insertion order. *)
Definition LEET_MAP : list (ascii * list ascii) :=
  [ ("a", ["@"; "4"]); ("e", ["3"]); ("i", ["1"; "!"]);
    ("o", ["0"]); ("s", ["5"; "$"]); ("t", ["7"]);
    ("l", ["1"]); ("g", ["9"]) ]%char.

(** *** _apply_leetspeak *)

Section Leetspeak.
(** [list(variants)]: the order in which a set is iterated. *)
Variable order : gset string -> list string.

(** The two nested [for] loops that fill [new_variants]. *)
Definition leet_new_variants (max_variants : Z) (char : ascii)
    (replacements : list ascii) (variants : gset string) : gset string :=
  foldl (fun new_variants variant =>
           foldl (fun new_variants replacement =>
                    let new_variant := replace char replacement variant in
                    let new_variant2 := replace (upper_char char) replacement variant in
                    add new_variant2 (add new_variant new_variants))
                 new_variants replacements)
        ∅ (slice_to max_variants (order variants)).

(** The loop over [LEET_MAP.items()], with its [break]. *)
Fixpoint leet_loop (items : list (ascii * list ascii)) (word : string)
    (max_variants : Z) (variants : gset string) : gset string :=
  match items with
  | [] => variants
  | (char, replacements) :: items' =>
      if char_in char (lower word) then
        let new_variants := leet_new_variants max_variants char replacements variants in
        let variants := variants ∪ new_variants in
        if max_variants * 2 <? Z.of_nat (size variants) then variants
        else leet_loop items' word max_variants variants
      else leet_loop items' word max_variants variants
  end.

Definition _apply_leetspeak (word : string) (max_variants : Z) : gset string :=
  let variants := leet_loop LEET_MAP word max_variants {[ word ]} in
  list_to_set (slice_to (max_variants * 2) (order variants)).

(** *** mutate_word *)

Definition is_vowel (c : ascii) : bool := char_in (lower_char c) "aeiou".

(** "Add common suffixes": [COMMON_SUFFIXES[:10 if level == 1 else None]]. *)
Definition add_suffixes (word : string) (level : Z) (mutations : gset string) : gset string :=
  foldl (fun mutations suffix =>
           add (capitalize word ++ suffix) (add (word ++ suffix) mutations))
        mutations
        (if level =? 1 then slice_to 10 COMMON_SUFFIXES else COMMON_SUFFIXES).

(** "Add year patterns"; [current_year] is the value of
    [datetime.now().year] and [range(-2, 3)] is written out. *)
Definition add_years (word : string) (current_year : Z) (mutations : gset string) : gset string :=
  foldl (fun mutations year_offset =>
           let year := str_of_int (current_year + year_offset) in
           add (word ++ last_chars 2 year) (add (word ++ year) mutations))
        mutations [-2; -1; 0; 1; 2].

(** The body of [if level >= 2]. *)
Definition add_level2 (cfg : Config) (word : string) (mutations : gset string) : gset string :=
  let mutations := add (reverse word) mutations in
  let mutations :=
    if len word <=? 8 then add (word ++ word) mutations else mutations in
  let no_vowels := filter_chars (fun c => negb (is_vowel c)) word in
  let mutations :=
    if negb (String.eqb no_vowels "") && (3 <=? len no_vowels)
    then add no_vowels mutations else mutations in
  if leet cfg then mutations ∪ _apply_leetspeak word 5 else mutations.

(** The body of [if level >= 3]. *)
Definition add_level3 (word : string) (mutations : gset string) : gset string :=
  let mutations :=
    foldl (fun mutations prefix =>
             if negb (startswith prefix (lower word)) then
               add (prefix ++ "_" ++ word) (add (prefix ++ word) mutations)
             else mutations)
          mutations COMMON_PREFIXES in
  let mutations := add (replace "s" "$" (replace "a" "@" word)) mutations in
  add (replace "o" "0" (replace "e" "3" word)) mutations.

Definition mutate_word (cfg : Config) (current_year : Z)
    (word : string) (level : Z) : gset string :=
  let mutations : gset string := {[ word ]} in
  if String.eqb word "" then mutations else
  let mutations := add (lower word) mutations in
  let mutations := add (upper word) mutations in
  let mutations := add (capitalize word) mutations in
  let mutations := add (title word) mutations in
  let mutations := add_suffixes word level mutations in
  let mutations := add_years word current_year mutations in
  let mutations := if 2 <=? level then add_level2 cfg word mutations else mutations in
  let mutations := if 3 <=? level then add_level3 word mutations else mutations in
  mutations.

End Leetspeak.

(** *** generate_combinations *)

(** [itertools.combinations(l, 2)] and [itertools.combinations(l, 3)]. *)
Fixpoint combinations2 {A} (l : list A) : list (A * A) :=
  match l with
  | [] => []
  | x :: l' => map (fun y => (x, y)) l' ++ combinations2 l'
  end.

Fixpoint combinations3 {A} (l : list A) : list (A * A * A) :=
  match l with
  | [] => []
  | x :: l' => map (fun p => (x, fst p, snd p)) (combinations2 l') ++ combinations3 l'
  end.

Definition generate_combinations (words : list string) (max_length : Z) : gset string :=
  let combinations : gset string := ∅ in
  let words := slice_to 30 words in
  let combinations :=
    foldl (fun combinations '(w1, w2) =>
             if len w1 + len w2 <=? max_length then
               let combinations := add (w1 ++ w2) combinations in
               let combinations := add (w2 ++ w1) combinations in
               let combinations := add (capitalize w1 ++ capitalize w2) combinations in
               let combinations := add (w1 ++ "_" ++ w2) combinations in
               let combinations := add (w1 ++ "." ++ w2) combinations in
               add (w1 ++ "-" ++ w2) combinations
             else combinations)
          combinations (combinations2 words) in
  if 3 <=? Z.of_nat (length words) then
    foldl (fun combinations '(c1, c2, c3) =>
             let combined := c1 ++ c2 ++ c3 in
             if len combined <=? max_length then
               let combinations := add combined combinations in
               add (capitalize c1 ++ capitalize c2 ++ capitalize c3) combinations
             else combinations)
          combinations (combinations3 (slice_to 10 words))
  else combinations.

(** *** generate_from_pattern *)

Definition ascii_lowercase : string := "abcdefghijklmnopqrstuvwxyz".
Definition ascii_uppercase : string := "ABCDEFGHIJKLMNOPQRSTUVWXYZ".
Definition ascii_letters : string := ascii_lowercase ++ ascii_uppercase.
Definition digits : string := "0123456789".

Definition mappings : list (ascii * string) :=
  [ ("@"%char, ascii_lowercase);
    (","%char, ascii_uppercase);
    ("%"%char, digits);
    ("^"%char, "!@#$%^&*");
    ("?"%char, ascii_letters);
    ("d"%char, digits);
    ("l"%char, ascii_lowercase);
    ("u"%char, ascii_uppercase);
    ("s"%char, "!@#$%^&*()_+-=") ].

(** [d[k]] when [k in d], for a dict given by its items. *)
Fixpoint dict_get {V} (d : list (ascii * V)) (k : ascii) : option V :=
  match d with
  | [] => None
  | (k', v) :: d' => if Ascii.eqb k k' then Some v else dict_get d' k
  end.

(** [mappings[char][:5] if len(mappings[char]) > 5 else mappings[char]]. *)
Definition chars_to_use (cls : string) : list ascii :=
  if 5 <? len cls then slice_to 5 (chars cls) else chars cls.

(** The inner function [_generate]; [results] is the set of the enclosing
    call, which every recursive call reads and extends. *)
Fixpoint _generate (limit : Z) (pattern : string) (current : string)
    (results : gset string) : gset string :=
  if limit <=? Z.of_nat (size results) then results else
  match pattern with
  | EmptyString => add current results
  | String char remaining =>
      match dict_get mappings char with
      | Some cls =>
          foldl (fun results replacement =>
                   _generate limit remaining (current ++ of_char replacement) results)
                results (chars_to_use cls)
      | None => _generate limit remaining (current ++ of_char char) results
      end
  end.

Definition generate_from_pattern (pattern : string) (limit : Z) : gset string :=
  _generate limit pattern "" ∅.

End Generator.

(** ** PassGenPro.sort_by_likelihood *)

Module Scorer.
Import PyStr.

(** A [for] loop whose body is [if test(x): score += bonus; break]. *)
Fixpoint bonus_at_first {A} (test : A -> bool) (bonus : Z) (l : list A)
    (score : Z) : Z :=
  match l with
  | [] => score
  | x :: l' => if test x then score + bonus else bonus_at_first test bonus l' score
  end.

(** The body of the loop over the word list; [base_words] is
    [list(self.base_words)]. *)
Definition score_of (base_words : list string) (password : string) : Z :=
  let score := 0 in
  let score :=
    if (8 <=? len password) && (len password <=? 12) then score + 20
    else if (6 <=? len password) && (len password <=? 16) then score + 10
    else score in
  let score :=
    bonus_at_first (fun year => contains year password) 15
                   ["2023"; "2024"; "2025"] score in
  let score :=
    if existsb (fun p => contains p (lower password))
               ["admin"; "user"; "pass"; "123"; "test"]
    then score + 10 else score in
  let score :=
    if any_char isupper password && any_char islower password
    then score + 5 else score in
  let score :=
    if match last_char password with Some c => isdigit c | None => false end
    then score + 8 else score in
  bonus_at_first (fun word => (4 <=? len word) && contains word (lower password)) 25
                 (slice_to 20 base_words) score.

(** The sort key [(-x[0], x[1])] and the order of Python tuples on it. *)
Definition key (x : Z * string) : Z * string := (- fst x, snd x).

Definition tuple_ltb (a b : Z * string) : bool :=
  (fst a <? fst b) || ((fst a =? fst b) && String.ltb (snd a) (snd b)).

Definition key_ltb (x y : Z * string) : bool := tuple_ltb (key x) (key y).

(** [list.sort(key=...)] is stable and compares keys with [<] only:
    an element is placed before the first element that is not smaller. *)
Fixpoint insert_by_key (x : Z * string) (l : list (Z * string)) : list (Z * string) :=
  match l with
  | [] => [x]
  | y :: l' => if key_ltb y x then y :: insert_by_key x l' else x :: l
  end.

Definition sort_by_key (l : list (Z * string)) : list (Z * string) :=
  foldr insert_by_key [] l.

(** The pairs [(score, password)] appended to [scored]. *)
Definition scored_pair (base_words : list string) (password : string) : Z * string :=
  (score_of base_words password, password).

(** [order] is the iteration order of [self.wordlist]. *)
Definition sort_by_likelihood (order : gset string -> list string)
    (wordlist : gset string) (base_words : list string) : list string :=
  let scored := map (scored_pair base_words) (order wordlist) in
  map snd (sort_by_key scored).

(** [x] may stand before [y] in the sorted list: the key of [y] is not
    smaller than the key of [x]. *)
Definition key_le (x y : Z * string) : Prop := key_ltb y x = false.

(** An iteration order visits every member of the set exactly once. *)
Definition iteration_order (order : gset string -> list string) : Prop :=
  forall X : gset string, order X ≡ₚ elements X.

(** The order of the ranked output: higher score first, and for equal
    scores the smaller string first. *)
Definition ranked_before (base_words : list string) (p q : string) : Prop :=
  score_of base_words q < score_of base_words p \/
  (score_of base_words p = score_of base_words q /\ String.ltb p q = true).

End Scorer.

(** ** The filter contract, as the specification words it *)

Module FilterSpec.
Import PyStr.

(** An enabled requirement asks for one character of the class. *)
Definition requirement (enabled : bool) (cls : ascii -> Prop) (password : string) : Prop :=
  enabled = true -> exists c, c ∈ chars password /\ cls c.

(** A candidate is kept iff its length is within the bounds and every
    enabled requirement is met; [punctuation] is the special class. *)
Definition kept (punctuation : list ascii) (cfg : Config) (password : string) : Prop :=
  (min_length cfg <= len password <= max_length cfg) /\
  requirement (require_upper cfg) (fun c => isupper c = true) password /\
  requirement (require_lower cfg) (fun c => islower c = true) password /\
  requirement (require_digit cfg) (fun c => isdigit c = true) password /\
  requirement (require_special cfg) (fun c => c ∈ punctuation) password.

Definition digit_and_special : Config :=
  {| min_length := 1; max_length := 128;
     require_upper := false; require_lower := false;
     require_digit := true; require_special := true; leet := false |}.

Definition special_only : Config :=
  {| min_length := 1; max_length := 128;
     require_upper := false; require_lower := false;
     require_digit := false; require_special := true; leet := false |}.

End FilterSpec.

(** ** Expected expansions of a pattern mask *)

Module PatternSpec.
Import PyStr.

(** The strings ["a" + d0 + "min" + d1 + d2] with the three digits drawn
    from ['0'..'4']. *)
Definition a_digit_min_digits : list string :=
  flat_map (fun d0 =>
    flat_map (fun d1 =>
      map (fun d2 => "a" ++ of_char d0 ++ "min" ++ of_char d1 ++ of_char d2)
          (chars "01234"))
      (chars "01234"))
    (chars "01234").

(** The strings ["admin" + d1 + d2] of the documented example. *)
Definition admin_digits : list string :=
  flat_map (fun d1 =>
    map (fun d2 => "admin" ++ of_char d1 ++ of_char d2) (chars "01234"))
    (chars "01234").

End PatternSpec.

(** ** The expansions that a pattern mask allows *)

Module PatternShape.
Import PyStr Generator.

(** The characters tried at a pattern position: the truncated class of a
    wildcard, the character itself for a literal. *)
Definition choices (char : ascii) : list ascii :=
  match dict_get mappings char with
  | Some cls => chars_to_use cls
  | None => [char]
  end.

(** All strings that take one allowed character per pattern position. *)
Fixpoint expansions (pattern : string) : list string :=
  match pattern with
  | EmptyString => [EmptyString]
  | String char remaining =>
      flat_map (fun replacement => map (String replacement) (expansions remaining))
               (choices char)
  end.

(** The number of wildcard positions of a pattern. *)
Fixpoint wildcards (pattern : string) : nat :=
  match pattern with
  | EmptyString => 0
  | String char remaining =>
      match dict_get mappings char with
      | Some _ => S (wildcards remaining)
      | None => wildcards remaining
      end
  end.

End PatternShape.

(** ** The forms emitted by the combination generator *)

Module CombinationShape.
Import PyStr Generator.

(** The six strings added for a pair of words. *)
Definition pair_forms (w1 w2 : string) : list string :=
  [ w1 ++ w2; w2 ++ w1; capitalize w1 ++ capitalize w2;
    w1 ++ "_" ++ w2; w1 ++ "." ++ w2; w1 ++ "-" ++ w2 ].

(** The two strings added for a triple of words. *)
Definition triple_forms (c1 c2 c3 : string) : list string :=
  [ c1 ++ c2 ++ c3; capitalize c1 ++ capitalize c2 ++ capitalize c3 ].

(** The body of the loop over pairs and the body of the loop over triples,
    as in [generate_combinations]. *)
Definition pair_step (max_length : Z) (combinations : gset string)
    (p : string * string) : gset string :=
  let '(w1, w2) := p in
  if len w1 + len w2 <=? max_length then
    let combinations := add (w1 ++ w2) combinations in
    let combinations := add (w2 ++ w1) combinations in
    let combinations := add (capitalize w1 ++ capitalize w2) combinations in
    let combinations := add (w1 ++ "_" ++ w2) combinations in
    let combinations := add (w1 ++ "." ++ w2) combinations in
    add (w1 ++ "-" ++ w2) combinations
  else combinations.

Definition triple_step (max_length : Z) (combinations : gset string)
    (t : string * string * string) : gset string :=
  let '(c1, c2, c3) := t in
  let combined := c1 ++ c2 ++ c3 in
  if len combined <=? max_length then
    let combinations := add combined combinations in
    add (capitalize c1 ++ capitalize c2 ++ capitalize c3) combinations
  else combinations.

End CombinationShape.

(** ** Python values that may be absent, and exceptions *)

Module Py.

(** The exceptions that the engine can raise. *)
Inductive exception := TypeError | AttributeError | IndexError | ValueError.

(** A call returns a value or raises. *)
Inductive outcome (A : Type) :=
| Returned (a : A)
| Raised (e : exception).
Arguments Returned {A} a.
Arguments Raised {A} e.

#[global] Instance outcome_ret : MRet outcome := fun A a => Returned a.
#[global] Instance outcome_bind : MBind outcome := fun A B f x =>
  match x with
  | Returned a => f a
  | Raised e => Raised e
  end.

(** A [for] loop whose body may raise. *)
Fixpoint for_each {A S} (body : S -> A -> outcome S) (s : S) (l : list A) : outcome S :=
  match l with
  | [] => Returned s
  | a :: l' => s' ← body s a; for_each body s' l'
  end.

(** An entry of the [config] dictionary: the key is missing, or it is
    bound to [None] (what [argparse] stores for an option that was not
    given), or it is bound to a value. *)
Inductive entry (A : Type) :=
| Missing
| PyNone
| Value (a : A).
Arguments Missing {A}.
Arguments PyNone {A}.
Arguments Value {A} a.

(** [config.get(key, default)]: [None] stands for Python's [None]. *)
Definition get_default {A} (e : entry A) (default : A) : option A :=
  match e with
  | Missing => Some default
  | PyNone => None
  | Value a => Some a
  end.

(** The truth value of [config.get(key)] for a list and for a string. *)
Definition truthy_list {A} (e : entry (list A)) : bool :=
  match e with
  | Value (_ :: _) => true
  | _ => false
  end.

Definition truthy_str (e : entry string) : bool :=
  match e with
  | Value (String _ _) => true
  | _ => false
  end.

(** [s[0]]. *)
Definition index0 (s : string) : outcome string :=
  match s with
  | EmptyString => Raised IndexError
  | String c _ => Returned (PyStr.of_char c)
  end.

(** [c.isspace()] on ASCII and [s.strip()]. *)
Definition isspace (c : ascii) : bool :=
  let n := PyStr.code c in
  (((9 <=? n) && (n <=? 13)) || ((28 <=? n) && (n <=? 32)))%N.

Fixpoint lstrip (s : string) : string :=
  match s with
  | EmptyString => EmptyString
  | String c s' => if isspace c then lstrip s' else s
  end.

Definition rstrip (s : string) : string := PyStr.reverse (lstrip (PyStr.reverse s)).

Definition strip (s : string) : string := rstrip (lstrip s).

End Py.

(** ** PasswordGenerator: keyboard walks and dates *)

Module Auxiliary.
Import PyStr Generator.

Definition KEYBOARD_WALKS : list string :=
  [ "qwerty"; "qwertyuiop"; "asdfgh"; "asdfghjkl";
    "zxcvbn"; "zxcvbnm"; "123456"; "1234567890";
    "qazwsx"; "qazxsw"; "qweasd"; "qweasdzxc";
    "1qaz2wsx"; "1qaz2wsx3edc"; "zaq1xsw2";
    "password"; "passw0rd"; "p@ssw0rd" ].

(** The body of [generate_keyboard_walks], for a class attribute
    [KEYBOARD_WALKS]. *)
Definition keyboard_walks_of (KEYBOARD_WALKS : list string) : gset string :=
  let walks : gset string := list_to_set KEYBOARD_WALKS in
  let walks := walks ∪ list_to_set (map reverse KEYBOARD_WALKS) in
  let walks := walks ∪ set_map capitalize walks in
  let walks := walks ∪ set_map upper walks in
  walks.

Definition generate_keyboard_walks : gset string := keyboard_walks_of KEYBOARD_WALKS.

(** [range(a, b)]. *)
Definition range (a b : Z) : list Z := seqZ a (b - a).

(** The loop [for year in range(a, b)] that adds both forms of a year. *)
Definition add_year_range (a b : Z) (dates : gset string) : gset string :=
  foldl (fun dates year =>
           add (last_chars 2 (str_of_int year)) (add (str_of_int year) dates))
        dates (range a b).

Definition MONTHS : list string :=
  [ "01"; "02"; "03"; "04"; "05"; "06"; "07"; "08"; "09"; "10"; "11"; "12" ].

Definition TRIPLES : list string :=
  [ "123"; "321"; "111"; "222"; "333"; "444"; "555"; "666"; "777"; "888";
    "999"; "000" ].

(** [end_year] is [None] when the argument is absent or [None];
    [current_year] is the value of [datetime.now().year]. *)
Definition generate_dates (current_year : Z) (start_year : Z) (end_year : option Z)
    : gset string :=
  let dates : gset string := ∅ in
  let end_year :=
    match end_year with
    | None => current_year + 2
    | Some e => if e =? 0 then current_year + 2 else e
    end in
  let dates := add_year_range start_year end_year dates in
  let dates := dates ∪ list_to_set MONTHS in
  let dates := dates ∪ list_to_set TRIPLES in
  add_year_range 1970 2010 dates.

End Auxiliary.

(** ** PassGenPro: names, base words and the pipeline *)

Module Pipeline.
Import PyStr Py Generator.

(** [[n.lower() for n in self.config.get(key, [])]]. *)
Definition lower_names (names : entry (list string)) : outcome (list string) :=
  match get_default names [] with
  | Some l => Returned (map lower l)
  | None => Raised TypeError
  end.

(** The body of the two nested loops of [generate_from_names]; [first[0]]
    and [last[0]] are evaluated where the source first evaluates them. *)
Definition names_pair (company : string) (passwords : gset string)
    (first last : string) : outcome (gset string) :=
  let passwords := add (first ++ last) passwords in
  let passwords := add (last ++ first) passwords in
  let passwords := add (first ++ "." ++ last) passwords in
  let passwords := add (first ++ "_" ++ last) passwords in
  first0 ← index0 first;
  let passwords := add (first0 ++ last) passwords in
  last0 ← index0 last;
  let passwords := add (first ++ last0) passwords in
  let passwords :=
    if negb (String.eqb company "") then
      let passwords := add (first ++ company) passwords in
      let passwords := add (first ++ "@" ++ company) passwords in
      add (first0 ++ last0 ++ company) passwords
    else passwords in
  Returned
    (foldl (fun passwords suffix =>
              add (first0 ++ last ++ suffix) (add (first ++ last ++ suffix) passwords))
           passwords ["123"; "2024"; "!"; "1"]).

(** What a successful run of the loop body adds. *)
Definition pair_passwords (company first last : string) (c1 c2 : ascii) : list string :=
  [ first ++ last; last ++ first; first ++ "." ++ last; first ++ "_" ++ last;
    of_char c1 ++ last; first ++ of_char c2 ] ++
  (if negb (String.eqb company "")
   then [ first ++ company; first ++ "@" ++ company;
          of_char c1 ++ of_char c2 ++ company ]
   else []) ++
  flat_map (fun suffix => [ first ++ last ++ suffix; of_char c1 ++ last ++ suffix ])
           ["123"; "2024"; "!"; "1"].

Definition generate_from_names (first_names last_names : entry (list string))
    (company : entry string) : outcome (gset string) :=
  first_names ← lower_names first_names;
  last_names ← lower_names last_names;
  company ← match get_default company "" with
            | Some c => Returned (lower c)
            | None => Raised AttributeError
            end;
  for_each (fun passwords first =>
              for_each (fun passwords last => names_pair company passwords first last)
                       passwords last_names)
           ∅ first_names.

(** The configuration of a run.  [input_file] is [None] when no file is
    configured and otherwise holds the lines that the file yielded before
    the read ended or failed; [urls] is [None] when no URL is configured
    or scraping is unavailable and otherwise holds the outcome of
    [scrape_urls_parallel]: the set it returned, or the exception it raised
    ([ValueError] from the thread pool when [threads] is not positive).  Integer and boolean entries are given with the defaults of
    [argparse], except [max_length], whose default differs between two
    readers. *)
Record RunConfig := mkRunConfig {
  words : entry (list string);
  input_file : option (list string);
  urls : option (outcome (gset string));
  first_names : entry (list string);
  last_names : entry (list string);
  company : entry string;
  patterns : list string;
  keyboard_walks : bool;
  dates : bool;
  combinations : bool;
  smart_order : bool;
  start_year : Z;
  end_year : option Z;
  run_min_length : Z;
  run_max_length : option Z;
  run_require_upper : bool;
  run_require_lower : bool;
  run_require_digit : bool;
  run_require_special : bool;
  run_leet : bool
}.

(** The entries that [apply_filters] and [mutate_word] read. *)
Definition filter_config (rc : RunConfig) : Config :=
  {| min_length := run_min_length rc;
     max_length := default 128 (run_max_length rc);
     require_upper := run_require_upper rc;
     require_lower := run_require_lower rc;
     require_digit := run_require_digit rc;
     require_special := run_require_special rc;
     leet := run_leet rc |}.

(** The loop over the lines of the input file. *)
Definition add_file_words (lines : list string) (base_words : gset string) : gset string :=
  foldl (fun base_words line =>
           let word := strip line in
           if negb (String.eqb word "") && (3 <=? len word) && (len word <=? 20)
           then add (lower word) base_words else base_words)
        base_words lines.

Definition collect_base_words (rc : RunConfig) (base_words : gset string)
    : outcome (gset string) :=
  let base_words :=
    match words rc with
    | Value (w :: ws) => base_words ∪ list_to_set (map lower (w :: ws))
    | _ => base_words
    end in
  let base_words :=
    match input_file rc with
    | Some lines => add_file_words lines base_words
    | None => base_words
    end in
  base_words ←
    match urls rc with
    | Some scrape => scraped ← scrape; Returned (base_words ∪ scraped)
    | None => Returned base_words
    end;
  base_words ←
    (if truthy_list (first_names rc) || truthy_list (last_names rc) then
       match get_default (first_names rc) [], get_default (last_names rc) [] with
       | Some firsts, Some lasts =>
           Returned (base_words ∪ list_to_set (map lower (firsts ++ lasts)))
       | _, _ => Raised TypeError
       end
     else Returned base_words);
  let base_words :=
    match company rc with
    | Value (String c s) => add (lower (String c s)) base_words
    | _ => base_words
    end in
  Returned base_words.

(** The counters of [self.stats]. *)
Record Stats := mkStats {
  stats_base_words : Z;
  stats_mutations : Z;
  stats_combinations : Z;
  stats_total : Z;
  stats_filtered : Z
}.

(** The orders in which the sets of a run are iterated. *)
Record Orders := mkOrders {
  order_variants : gset string -> list string;
  order_base : gset string -> list string;
  order_dates : gset string -> list string;
  order_wordlist : gset string -> list string
}.

(** The join of the first 20 base words with the first 20 dates. *)
Definition add_word_dates (ws ds : list string) (wordlist : gset string) : gset string :=
  foldl (fun wordlist word =>
           foldl (fun wordlist date => add (date ++ word) (add (word ++ date) wordlist))
                 wordlist ds)
        wordlist ws.

(** The word list before [apply_filters], on an object fresh from
    [__init__]; the second component is [stats['mutations']] and the third
    [stats['combinations']]. *)
Definition build_wordlist (o : Orders) (current_year : Z) (rc : RunConfig)
    (base_words : gset string) : outcome (gset string * Z * Z) :=
  let wordlist : gset string := ∅ in
  let '(wordlist, mutations) :=
    if negb (bool_decide (base_words = ∅)) then
      let mutation_level := if run_leet rc then 2 else 1 in
      foldl (fun '(wordlist, count) word =>
               let mutations := mutate_word (order_variants o) (filter_config rc)
                                            current_year word mutation_level in
               (wordlist ∪ mutations, count + Z.of_nat (size mutations)))
            (wordlist, 0) (order_base o base_words)
    else (wordlist, 0) in
  let '(wordlist, combos) :=
    if combinations rc && (1 <? Z.of_nat (size base_words)) then
      let max_length := default 32 (run_max_length rc) in
      let combinations :=
        generate_combinations (slice_to 50 (order_base o base_words)) max_length in
      (wordlist ∪ combinations, Z.of_nat (size combinations))
    else (wordlist, 0) in
  let wordlist :=
    if dates rc then
      let dates := Auxiliary.generate_dates current_year (start_year rc) (end_year rc) in
      let wordlist := wordlist ∪ dates in
      add_word_dates (slice_to 20 (order_base o base_words))
                     (slice_to 20 (order_dates o dates)) wordlist
    else wordlist in
  let wordlist :=
    if keyboard_walks rc then wordlist ∪ Auxiliary.generate_keyboard_walks
    else wordlist in
  let wordlist :=
    foldl (fun wordlist pattern => wordlist ∪ generate_from_pattern pattern 1000)
          wordlist (patterns rc) in
  wordlist ←
    (if truthy_list (first_names rc) && truthy_list (last_names rc) then
       name_passwords ← generate_from_names (first_names rc) (last_names rc) (company rc);
       Returned (wordlist ∪ name_passwords)
     else Returned wordlist);
  Returned (wordlist, mutations, combos).

(** [generate] on an object fresh from [__init__]: the returned list and
    the counters. *)
Definition generate (o : Orders) (current_year : Z) (rc : RunConfig)
    : outcome (list string * Stats) :=
  base_words ← collect_base_words rc ∅;
  let base_count := Z.of_nat (size base_words) in
  if bool_decide (base_words = ∅) && negb (keyboard_walks rc)
     && bool_decide (patterns rc = [])
  then Returned ([], mkStats base_count 0 0 0 0)
  else
    '(wordlist, mutations, combos) ← build_wordlist o current_year rc base_words;
    let st := Filter.apply_filters (filter_config rc) (Filter.mkState wordlist 0) in
    let result :=
      if smart_order rc then
        Scorer.sort_by_likelihood (order_wordlist o) (Filter.wordlist st)
                                  (order_base o base_words)
      else order_wordlist o (Filter.wordlist st) in
    Returned (result,
              mkStats base_count mutations combos (Z.of_nat (length result))
                      (Filter.stats_filtered st)).

End Pipeline.

(** ** The combination generator for an arbitrary [str.capitalize] *)

Module CaseMethod.
Import PyStr Generator.

(** [generate_combinations] with the method [str.capitalize] as a
    parameter: the body is that of [Generator.generate_combinations], which
    is the instance at the ASCII [capitalize]. *)
Definition generate_combinations_with (capitalize : string -> string)
    (words : list string) (max_length : Z) : gset string :=
  let combinations : gset string := ∅ in
  let words := slice_to 30 words in
  let combinations :=
    foldl (fun combinations '(w1, w2) =>
             if len w1 + len w2 <=? max_length then
               let combinations := add (w1 ++ w2) combinations in
               let combinations := add (w2 ++ w1) combinations in
               let combinations := add (capitalize w1 ++ capitalize w2) combinations in
               let combinations := add (w1 ++ "_" ++ w2) combinations in
               let combinations := add (w1 ++ "." ++ w2) combinations in
               add (w1 ++ "-" ++ w2) combinations
             else combinations)
          combinations (combinations2 words) in
  if 3 <=? Z.of_nat (length words) then
    foldl (fun combinations '(c1, c2, c3) =>
             let combined := c1 ++ c2 ++ c3 in
             if len combined <=? max_length then
               let combinations := add combined combinations in
               add (capitalize c1 ++ capitalize c2 ++ capitalize c3) combinations
             else combinations)
          combinations (combinations3 (slice_to 10 words))
  else combinations.

(** The character [ß] (U+00DF), of code 223. *)
Definition sharp_s : ascii := ascii_of_N 223.

(** [str.capitalize] on text made of ASCII characters and [ß]: the first
    character takes its title-case form, which is the two characters [Ss]
    for [ß], and the rest is lower-cased, which leaves [ß] as it is. *)
Definition capitalize_sharp_s (s : string) : string :=
  match s with
  | EmptyString => EmptyString
  | String c s' =>
      if Ascii.eqb c sharp_s then "Ss" ++ lower s'
      else String (upper_char c) (lower s')
  end.

End CaseMethod.

(** ** Facts about the string primitives *)

Section PyStrFacts.
Import PyStr.

Lemma any_char_exists (p : ascii -> bool) (s : string) :
  any_char p s = true <-> exists c, c ∈ chars s /\ p c = true.
Proof.
  induction s as [|a s IH]; simpl.
  - split; [discriminate | intros (c & Hc & _); inversion Hc].
  - rewrite orb_true_iff, IH. split.
    + intros [Ha | (c & Hc & Hp)].
      * exists a. split; [left | exact Ha].
      * exists c. split; [right; exact Hc | exact Hp].
    + intros (c & Hc & Hp). apply elem_of_cons in Hc as [-> | Hc].
      * left; exact Hp.
      * right; exists c; split; assumption.
Qed.

Lemma char_in_elem_of (c : ascii) (s : string) :
  char_in c s = true <-> c ∈ chars s.
Proof.
  unfold char_in. rewrite any_char_exists. split.
  - intros (c' & Hc' & Heq). apply Ascii.eqb_eq in Heq. subst. exact Hc'.
  - intros Hc. exists c. split; [exact Hc | apply Ascii.eqb_refl].
Qed.

Lemma len_nonneg (s : string) : 0 <= len s.
Proof. unfold len. lia. Qed.

Lemma length_app (s t : string) :
  String.length (s ++ t) = (String.length s + String.length t)%nat.
Proof.
  induction s as [|c s IH]; [reflexivity |].
  change (S (String.length (s ++ t)) = S (String.length s + String.length t)).
  by rewrite IH.
Qed.

Lemma len_app (s t : string) : len (s ++ t) = len s + len t.
Proof. unfold len. rewrite length_app. lia. Qed.

Lemma length_map_chars (f : ascii -> ascii) (s : string) :
  String.length (map_chars f s) = String.length s.
Proof. induction s; simpl; congruence. Qed.

End PyStrFacts.

(** ** The filter stage *)

Section FilterFacts.
Import PyStr Filter FilterSpec.

Lemma requirement_any (enabled : bool) (p : ascii -> bool) (password : string) :
  enabled && negb (any_char p password) = false <->
  requirement enabled (fun c => p c = true) password.
Proof.
  unfold requirement. rewrite <- any_char_exists.
  destruct enabled, (any_char p password); simpl; split; auto; try discriminate.
  intros H. specialize (H eq_refl). discriminate.
Qed.

Lemma keeps_kept (cfg : Config) (password : string) :
  keeps cfg password = true <-> kept (chars SPECIALS) cfg password.
Proof.
  unfold keeps, kept.
  assert (Hsp : requirement (require_special cfg) (fun c => c ∈ chars SPECIALS) password
                <-> requirement (require_special cfg) (fun c => is_special c = true) password).
  { unfold requirement, is_special.
    split; intros H He; destruct (H He) as (c & Hc & Hin); exists c;
      (split; [exact Hc | by apply char_in_elem_of]). }
  rewrite Hsp, <- !requirement_any.
  destruct (Z.leb_spec (min_length cfg) (len password)),
           (Z.leb_spec (len password) (max_length cfg)); simpl;
    try (split; [discriminate | intros [? _]; lia]).
  repeat match goal with
         | |- context [if ?b then _ else _] => destruct b eqn:?
         end; split; try discriminate; try tauto;
    intros (_ & ? & ? & ? & ?); congruence.
Qed.

Lemma elem_of_apply_filters (cfg : Config) (st : State) (password : string) :
  password ∈ wordlist (apply_filters cfg st) <->
  keeps cfg password = true /\ password ∈ wordlist st.
Proof. unfold apply_filters; simpl. by rewrite elem_of_filter. Qed.

Lemma specials_distinct : NoDup (chars SPECIALS) /\ length (chars SPECIALS) = 26%nat.
Proof.
  split; [| reflexivity].
  apply (bool_decide_unpack (NoDup (chars SPECIALS))). vm_compute. exact I.
Qed.

End FilterFacts.

(** C2, as stated, is refuted: no class of 24 characters describes the
    [require_special] test, whatever the 24 characters are. *)
Lemma filter_special_class_is_not_24 :
  ~ exists punctuation : list ascii,
      length punctuation = 24%nat /\
      forall cfg password,
        Filter.keeps cfg password = true <-> FilterSpec.kept punctuation cfg password.
Proof.
  intros (punctuation & Hlen & Hspec).
  destruct specials_distinct as [Hnd H26].
  destruct (decide (Forall (fun c => c ∈ punctuation) (PyStr.chars Filter.SPECIALS)))
    as [Hall | Hsome].
  - assert (PyStr.chars Filter.SPECIALS ⊆+ punctuation) as Hsub.
    { apply NoDup_submseteq; [exact Hnd |]. intros c Hc.
      rewrite Forall_forall in Hall. by apply Hall. }
    apply submseteq_length in Hsub. lia.
  - apply not_Forall_Exists in Hsome; [| intros c; apply _].
    apply Exists_exists in Hsome as (c & Hc & Hnot). simpl in Hnot.
    assert (Hk : Filter.keeps FilterSpec.special_only (PyStr.of_char c) = true).
    { apply keeps_kept. unfold FilterSpec.kept, FilterSpec.requirement; simpl.
      repeat split; try discriminate; try (unfold PyStr.len; simpl; lia).
      intros _. exists c. split; [by left | exact Hc]. }
    apply Hspec in Hk. destruct Hk as (_ & _ & _ & _ & Hreq).
    destruct (Hreq eq_refl) as (c' & Hc' & Hin).
    apply list_elem_of_singleton in Hc'. subst c'. contradiction.
Qed.

(** C2, amended: a candidate survives [apply_filters] iff it was in the
    word list, its length lies within [min_length, max_length] and every
    enabled requirement is met by one of its characters, the special class
    being the 26 distinct characters of the literal in the source; with
    digit and special required, the four-candidate scenario keeps exactly
    the two candidates that have both. *)
Theorem apply_filters_keeps_iff :
  (forall cfg st password,
      password ∈ Filter.wordlist (Filter.apply_filters cfg st) <->
      password ∈ Filter.wordlist st /\
      FilterSpec.kept (PyStr.chars Filter.SPECIALS) cfg password) /\
  (NoDup (PyStr.chars Filter.SPECIALS) /\
   length (PyStr.chars Filter.SPECIALS) = 26%nat) /\
  Filter.wordlist
    (Filter.apply_filters FilterSpec.digit_and_special
       (Filter.mkState {[ "abc"; "abc1"; "abc1!"; "ABC1!" ]} 0))
  = {[ "abc1!"; "ABC1!" ]}.
Proof.
  split; [| split].
  - intros cfg st password.
    rewrite elem_of_apply_filters, keeps_kept. tauto.
  - exact specials_distinct.
  - vm_compute. reflexivity.
Qed.

(** C7: filtering is idempotent on the candidate set. *)
Theorem apply_filters_idempotent (cfg : Config) (st : Filter.State) :
  Filter.wordlist (Filter.apply_filters cfg (Filter.apply_filters cfg st))
  = Filter.wordlist (Filter.apply_filters cfg st).
Proof.
  apply set_eq. intros password.
  rewrite !elem_of_apply_filters. tauto.
Qed.

(** C8: with [min_length > max_length] the filter returns the empty set,
    for every candidate set; [apply_filters] is a total function and has
    no error result. *)
Theorem apply_filters_inverted_bounds (cfg : Config) (st : Filter.State) :
  max_length cfg < min_length cfg ->
  Filter.wordlist (Filter.apply_filters cfg st) = ∅.
Proof.
  intros Hinv. apply set_eq. intros password.
  rewrite elem_of_apply_filters, keeps_kept. unfold FilterSpec.kept.
  split; [intros [[? _] _]; lia | intros H; by apply not_elem_of_empty in H].
Qed.

Lemma apply_filters_inverted_bounds_witness :
  Filter.wordlist
    (Filter.apply_filters
       {| min_length := 12; max_length := 8;
          require_upper := false; require_lower := false;
          require_digit := false; require_special := false; leet := false |}
       (Filter.mkState {[ "password1"; "admin"; "Summer2024!" ]} 0)) = ∅.
Proof. apply apply_filters_inverted_bounds. simpl. lia. Defined.


(** ** The pattern expander *)

Section PatternFacts.
Import PyStr Generator.

Lemma elem_of_add (x y : string) (s : gset string) :
  x ∈ add y s <-> x = y \/ x ∈ s.
Proof. unfold add. by rewrite elem_of_union, elem_of_singleton. Qed.

(** A loop keeps the property that every run of its body keeps. *)
Lemma foldl_invariant {B} (P : string -> Prop) (step : gset string -> B -> gset string)
    (l : list B) :
  (forall results b s, s ∈ step results b -> s ∈ results \/ P s) ->
  forall results s, s ∈ foldl step results l -> s ∈ results \/ P s.
Proof.
  intros Hstep. induction l as [|b l IH]; intros results s Hs; simpl in Hs.
  - by left.
  - apply IH in Hs as [Hs | Hs]; [| by right].
    by apply Hstep in Hs.
Qed.

(** The equations of [_generate]. *)
Lemma _generate_nil (limit : Z) (current : string) (results : gset string) :
  _generate limit "" current results =
  if limit <=? Z.of_nat (size results) then results else add current results.
Proof. reflexivity. Qed.

Lemma _generate_cons (limit : Z) (char : ascii) (remaining current : string)
    (results : gset string) :
  _generate limit (String char remaining) current results =
  if limit <=? Z.of_nat (size results) then results else
  match dict_get mappings char with
  | Some cls =>
      foldl (fun results replacement =>
               _generate limit remaining (current ++ of_char replacement) results)
            results (chars_to_use cls)
  | None => _generate limit remaining (current ++ of_char char) results
  end.
Proof. reflexivity. Qed.

Lemma _generate_length (limit : Z) (pattern : string) :
  forall current results s,
    s ∈ _generate limit pattern current results ->
    s ∈ results \/
    String.length s = (String.length current + String.length pattern)%nat.
Proof.
  induction pattern as [|char remaining IH]; intros current results s Hs.
  - rewrite _generate_nil in Hs.
    destruct (limit <=? Z.of_nat (size results)); [by left |].
    apply elem_of_add in Hs as [-> | Hs]; [right; simpl; lia | by left].
  - rewrite _generate_cons in Hs.
    destruct (limit <=? Z.of_nat (size results)); [by left |].
    destruct (dict_get mappings char) as [cls|].
    + revert results s Hs. apply foldl_invariant.
      intros results replacement s Hs.
      apply IH in Hs as [Hs | Hs]; [by left | right].
      rewrite Hs, length_app. simpl. lia.
    + apply IH in Hs as [Hs | Hs]; [by left | right].
      rewrite Hs, length_app. simpl. lia.
Qed.

End PatternFacts.

(** C9: every string produced by the pattern expander is as long as the
    pattern. *)
Theorem generate_from_pattern_length (pattern : string) (limit : Z) (s : string) :
  s ∈ Generator.generate_from_pattern pattern limit ->
  String.length s = String.length pattern.
Proof.
  unfold Generator.generate_from_pattern. intros Hs.
  apply _generate_length in Hs as [Hs | Hs].
  - by apply not_elem_of_empty in Hs.
  - exact Hs.
Qed.

Lemma generate_from_pattern_length_witness :
  "pw3$" ∈ Generator.generate_from_pattern "pw%^" 1000 /\
  String.length "pw3$" = String.length "pw%^".
Proof.
  assert (H : "pw3$" ∈ Generator.generate_from_pattern "pw%^" 1000).
  { apply (bool_decide_unpack _). vm_compute. exact I. }
  split; [exact H | exact (generate_from_pattern_length "pw%^" 1000 "pw3$" H)].
Defined.

(** C4, the code at the documented example: the [d] of ["admin"] is itself
    a digit wildcard, so ["admin%%"] expands to the 125 strings
    ["a" + d0 + "min" + d1 + d2]; none of them starts with ["admin"] and
    none of the 25 strings ["admin" + d1 + d2] is produced. *)
Theorem generate_from_pattern_admin :
  elements (Generator.generate_from_pattern "admin%%" 1000)
    ≡ₚ PatternSpec.a_digit_min_digits /\
  size (Generator.generate_from_pattern "admin%%" 1000) = 125%nat /\
  "a0min00" ∈ Generator.generate_from_pattern "admin%%" 1000 /\
  (forall s, s ∈ PatternSpec.admin_digits ->
             s ∉ Generator.generate_from_pattern "admin%%" 1000) /\
  (forall s, s ∈ Generator.generate_from_pattern "admin%%" 1000 ->
             PyStr.startswith "admin" s = false).
Proof.
  assert (HP : elements (Generator.generate_from_pattern "admin%%" 1000)
                 ≡ₚ PatternSpec.a_digit_min_digits).
  { apply (bool_decide_unpack _). vm_compute. exact I. }
  assert (Hin : forall s, s ∈ Generator.generate_from_pattern "admin%%" 1000
                          <-> s ∈ PatternSpec.a_digit_min_digits).
  { intros s. by rewrite <- elem_of_elements, HP. }
  split; [exact HP | split; [| split; [| split]]].
  - vm_compute. reflexivity.
  - apply Hin. apply (bool_decide_unpack _). vm_compute. exact I.
  - intros s Hs. rewrite Hin. revert s Hs. apply Forall_forall.
    apply (bool_decide_unpack _). vm_compute. exact I.
  - intros s Hs. apply Hin in Hs. revert s Hs. apply Forall_forall.
    apply (bool_decide_unpack _). vm_compute. exact I.
Qed.


(** ** The mutation engine *)

Section MutationFacts.
Import PyStr Generator.

Lemma add_extensive (x : string) (m : gset string) : m ⊆ add x m.
Proof. unfold add. apply union_subseteq_r. Qed.

Lemma add_mono (x : string) (m m' : gset string) : m ⊆ m' -> add x m ⊆ add x m'.
Proof. unfold add. apply union_mono_l. Qed.

(** A loop whose body only adds to the set returns a superset of it. *)
Lemma foldl_extensive {B} (step : gset string -> B -> gset string) (l : list B) :
  (forall m b, m ⊆ step m b) -> forall m, m ⊆ foldl step m l.
Proof.
  intros Hstep. induction l as [|b l IH]; intros m; simpl; [done |].
  etrans; [apply (Hstep m b) | apply IH].
Qed.

Lemma add_suffixes_extensive word level m : m ⊆ add_suffixes word level m.
Proof.
  unfold add_suffixes. apply foldl_extensive. intros m' b.
  etrans; apply add_extensive.
Qed.

Lemma add_years_extensive word year m : m ⊆ add_years word year m.
Proof.
  unfold add_years. apply foldl_extensive. intros m' b.
  etrans; apply add_extensive.
Qed.

Lemma add_years_mono word year m m' :
  m ⊆ m' -> add_years word year m ⊆ add_years word year m'.
Proof. unfold add_years. simpl. intros H. repeat apply add_mono. exact H. Qed.

Lemma add_level2_extensive order cfg word m : m ⊆ add_level2 order cfg word m.
Proof.
  unfold add_level2.
  repeat match goal with
         | |- context [if ?b then _ else _] => destruct b
         end;
    repeat (etrans; [| first [apply union_subseteq_l | apply add_extensive]]); done.
Qed.

Lemma add_level3_extensive word m : m ⊆ add_level3 word m.
Proof.
  unfold add_level3.
  do 2 (etrans; [| apply add_extensive]).
  apply foldl_extensive. intros m' prefix.
  destruct (negb _); [| done].
  etrans; apply add_extensive.
Qed.

(** The first ten suffixes add nothing that the whole list does not add. *)
Lemma add_suffixes_level1 word level m :
  add_suffixes word 1 m ⊆ add_suffixes word level m.
Proof.
  unfold add_suffixes. destruct (level =? 1); [done |].
  change (1 =? 1) with true. cbv beta iota.
  change (slice_to 10 COMMON_SUFFIXES) with (take 10 COMMON_SUFFIXES).
  rewrite <- (take_drop 10 COMMON_SUFFIXES) at 2.
  rewrite foldl_app. apply foldl_extensive. intros m' b.
  etrans; apply add_extensive.
Qed.

(** Level 1 is contained in every level. *)
Lemma mutate_word_level1_subseteq order cfg year word level :
  mutate_word order cfg year word 1 ⊆ mutate_word order cfg year word level.
Proof.
  unfold mutate_word. destruct (String.eqb word ""); [done |].
  change (2 <=? 1) with false. change (3 <=? 1) with false. cbv beta iota.
  etrans; [apply add_years_mono, add_suffixes_level1 |].
  destruct (3 <=? level); [etrans; [| apply add_level3_extensive] |];
    (destruct (2 <=? level); [etrans; [| apply add_level2_extensive] |]); done.
Qed.

End MutationFacts.

(** C5: whatever the configuration and the current year, every level-1
    mutation of a word is a level-3 mutation of it. *)
Theorem mutate_word_level1_subseteq_level3
    (order : gset string -> list string) (cfg : Config) (current_year : Z)
    (w : string) :
  Generator.mutate_word order cfg current_year w 1
    ⊆ Generator.mutate_word order cfg current_year w 3.
Proof. apply mutate_word_level1_subseteq. Qed.

(** C6: the level-1 mutations of a word contain the word, its lower-case,
    upper-case and capitalized forms. *)
Theorem mutate_word_level1_case_forms
    (order : gset string -> list string) (cfg : Config) (current_year : Z)
    (w : string) :
  {[ w; PyStr.lower w; PyStr.upper w; PyStr.capitalize w ]}
    ⊆ Generator.mutate_word order cfg current_year w 1.
Proof.
  unfold Generator.mutate_word. destruct (String.eqb_spec w "") as [-> | _].
  - simpl. intros x. rewrite !elem_of_union, !elem_of_singleton. tauto.
  - change (2 <=? 1) with false. change (3 <=? 1) with false. cbv beta iota.
    etrans; [| apply add_years_extensive].
    etrans; [| apply add_suffixes_extensive].
    intros x. rewrite !elem_of_add, !elem_of_union, !elem_of_singleton. tauto.
Qed.


(** ** The leetspeak bound *)

Section LeetspeakFacts.
Import PyStr Generator.

Lemma size_list_to_set_le (l : list string) :
  (size (list_to_set l : gset string) <= length l)%nat.
Proof.
  induction l as [|x l IH].
  - rewrite list_to_set_nil, size_empty. simpl. lia.
  - rewrite list_to_set_cons, size_union_alt, size_singleton. simpl.
    pose proof (subseteq_size (list_to_set l ∖ {[x]}) (list_to_set l : gset string)
                  (subseteq_difference_l _ _ _ (reflexivity _))).
    lia.
Qed.

Lemma length_slice_to {A} (n : Z) (l : list A) :
  0 <= n -> (length (slice_to n l) <= Z.to_nat n)%nat.
Proof.
  intros Hn. unfold slice_to.
  destruct (Z.leb_spec 0 n); [| lia].
  rewrite length_take. lia.
Qed.

Lemma _apply_leetspeak_size order word max_variants :
  0 <= max_variants ->
  Z.of_nat (size (_apply_leetspeak order word max_variants)) <= 2 * max_variants.
Proof.
  intros Hmv. unfold _apply_leetspeak.
  pose proof (size_list_to_set_le
    (slice_to (max_variants * 2)
       (order (leet_loop order LEET_MAP word max_variants {[word]})))) as H1.
  pose proof (length_slice_to (max_variants * 2)
    (order (leet_loop order LEET_MAP word max_variants {[word]})) ltac:(lia)) as H2.
  lia.
Qed.

End LeetspeakFacts.

(** C3: with [max_variants = 5] the leetspeak expansion of any word has at
    most 10 members, in whatever order the variant set is iterated; more
    generally the result has at most [2 * max_variants] members for every
    word and every bound that is not negative. *)
Theorem apply_leetspeak_bound (order : gset string -> list string) (word : string) :
  (size (Generator._apply_leetspeak order word 5) <= 10)%nat /\
  (forall max_variants, 0 <= max_variants ->
     Z.of_nat (size (Generator._apply_leetspeak order word max_variants))
       <= 2 * max_variants).
Proof.
  split.
  - pose proof (_apply_leetspeak_size order word 5 ltac:(lia)). lia.
  - apply _apply_leetspeak_size.
Qed.

Lemma apply_leetspeak_bound_witness :
  (size (Generator._apply_leetspeak elements "Password" 5) <= 10)%nat /\
  Z.of_nat (size (Generator._apply_leetspeak elements "Password" 3)) <= 2 * 3.
Proof.
  split.
  - exact (proj1 (apply_leetspeak_bound elements "Password")).
  - apply (proj2 (apply_leetspeak_bound elements "Password") 3). lia.
Defined.

(** ** The likelihood scorer *)

Section ScorerFacts.
Import PyStr Scorer.

Lemma string_ltb_false (a b : string) : String.ltb a b = false <-> String.le b a.
Proof.
  unfold String.ltb, String.le, String.leb.
  rewrite (String.compare_antisym b a).
  destruct (String.compare a b); simpl; split; done.
Qed.

Lemma string_ltb_true (a b : string) :
  String.ltb a b = true <-> String.le a b /\ a <> b.
Proof.
  unfold String.ltb, String.le, String.leb.
  destruct (String.compare a b) eqn:Hc; simpl.
  - apply String.compare_eq_iff in Hc. split; [done | intros [_ ?]; done].
  - split; [intros _ | done]. split; [done |]. intros ->.
    pose proof (String.compare_antisym b b) as Ha.
    rewrite Hc in Ha. discriminate.
  - split; [done | intros [[] _]].
Qed.

Lemma key_le_spec (x y : Z * string) :
  key_le x y <->
  fst y < fst x \/ (fst x = fst y /\ String.le (snd x) (snd y)).
Proof.
  unfold key_le, key_ltb, tuple_ltb, key. simpl.
  rewrite orb_false_iff, andb_false_iff, Z.ltb_ge, Z.eqb_neq, string_ltb_false.
  split.
  - intros [Hge [Hne | Hle]]; [left; lia |].
    destruct (decide (fst y < fst x)); [by left | right].
    split; [lia | exact Hle].
  - intros [Hlt | [Heq Hle]]; (split; [lia |]); [left; lia | by right].
Qed.

#[local] Instance key_le_dec : RelDecision key_le.
Proof. intros x y. unfold key_le. apply _. Defined.

#[local] Instance key_le_trans : Transitive key_le.
Proof.
  intros x y z. rewrite !key_le_spec.
  intros [? | [? Hxy]] [? | [? Hyz]]; try (left; lia).
  right. split; [lia | by etrans].
Qed.

#[local] Instance key_le_antisym : AntiSymm (=) key_le.
Proof.
  intros [sx px] [sy py]. rewrite !key_le_spec. simpl.
  intros [? | [? Hxy]] [? | [? Hyx]]; try lia.
  f_equal; [done | by apply (anti_symm String.le)].
Qed.

Lemma key_le_total (x y : Z * string) : key_le x y \/ key_le y x.
Proof.
  rewrite !key_le_spec.
  destruct (Z.lt_trichotomy (fst x) (fst y)) as [? | [? | ?]]; [right; left; lia | | left; left; lia].
  destruct (total String.le (snd x) (snd y)); [left | right]; right; split; (done || lia).
Qed.

(** *** The insertion sort on keys *)

Lemma insert_by_key_perm (x : Z * string) (l : list (Z * string)) :
  insert_by_key x l ≡ₚ x :: l.
Proof.
  induction l as [|y l IH]; simpl; [done |].
  destruct (key_ltb y x); [| done].
  rewrite IH. apply Permutation_swap.
Qed.

Lemma sort_by_key_perm (l : list (Z * string)) : sort_by_key l ≡ₚ l.
Proof.
  induction l as [|x l IH]; simpl; [done |].
  rewrite insert_by_key_perm. by rewrite IH.
Qed.

Lemma insert_by_key_hd (a x : Z * string) (l : list (Z * string)) :
  key_le a x -> HdRel key_le a l -> HdRel key_le a (insert_by_key x l).
Proof.
  intros Hax Hal. destruct l as [|y l]; simpl; [by constructor |].
  destruct (key_ltb y x); constructor; [by inversion Hal | done].
Qed.

Lemma insert_by_key_sorted (x : Z * string) (l : list (Z * string)) :
  Sorted key_le l -> Sorted key_le (insert_by_key x l).
Proof.
  induction 1 as [|y l Hl IH Hy]; simpl; [by repeat constructor |].
  destruct (key_ltb y x) eqn:Hyx.
  - constructor; [exact IH |].
    apply insert_by_key_hd; [| exact Hy].
    destruct (key_le_total y x) as [? | Hxy]; [done |].
    unfold key_le in Hxy. congruence.
  - constructor; [by constructor |]. constructor. exact Hyx.
Qed.

Lemma sort_by_key_sorted (l : list (Z * string)) : Sorted key_le (sort_by_key l).
Proof.
  induction l as [|x l IH]; simpl; [constructor | by apply insert_by_key_sorted].
Qed.

(** The sorted list depends on the members of the input only. *)
Lemma sort_by_key_unique (l1 l2 : list (Z * string)) :
  l1 ≡ₚ l2 -> sort_by_key l1 = sort_by_key l2.
Proof.
  intros Hperm. apply (Sorted_unique key_le); try apply sort_by_key_sorted.
  by rewrite !sort_by_key_perm.
Qed.

(** *** The ranked output *)

Lemma sort_by_likelihood_perm order wordlist base_words :
  sort_by_likelihood order wordlist base_words ≡ₚ order wordlist.
Proof.
  unfold sort_by_likelihood. cbv zeta.
  rewrite sort_by_key_perm, map_map. simpl. by rewrite map_id.
Qed.

Lemma scored_sorted_ranked base_words (l : list string) :
  NoDup l ->
  StronglySorted key_le (map (scored_pair base_words) l) ->
  StronglySorted (ranked_before base_words) l.
Proof.
  induction l as [|p l IH]; intros Hnd Hs; [constructor |].
  apply NoDup_cons in Hnd as [Hp Hnd].
  simpl in Hs. apply StronglySorted_inv in Hs as [Hs Hall].
  constructor; [by apply IH |].
  apply Forall_forall. intros q Hq.
  rewrite Forall_forall in Hall.
  assert (Hle : key_le (scored_pair base_words p) (scored_pair base_words q)).
  { apply Hall. apply list_elem_of_In, in_map, list_elem_of_In, Hq. }
  apply key_le_spec in Hle. simpl in Hle. unfold ranked_before.
  destruct Hle as [? | [? Hle]]; [by left | right].
  split; [done |]. apply string_ltb_true. split; [done |].
  intros ->. contradiction.
Qed.

Lemma scored_pairs_of_snd base_words (l : list string) (k : list (Z * string)) :
  k ≡ₚ map (scored_pair base_words) l ->
  k = map (scored_pair base_words) (map snd k).
Proof.
  intros Hperm.
  assert (Hall : Forall (fun x => x = scored_pair base_words (snd x)) k).
  { rewrite Hperm. apply Forall_forall. intros x Hx.
    apply list_elem_of_In, in_map_iff in Hx as (p & <- & _). done. }
  clear Hperm. induction Hall as [|x k Hx _ IH]; simpl; [done |].
  by rewrite <- Hx, <- IH.
Qed.

Lemma sort_by_likelihood_ranked order wordlist base_words :
  iteration_order order ->
  StronglySorted (ranked_before base_words)
                 (sort_by_likelihood order wordlist base_words).
Proof.
  intros Horder. apply scored_sorted_ranked.
  - rewrite sort_by_likelihood_perm, (Horder wordlist). apply NoDup_elements.
  - unfold sort_by_likelihood. cbv zeta.
    rewrite <- (scored_pairs_of_snd base_words (order wordlist));
      [| apply sort_by_key_perm].
    apply Sorted_StronglySorted; [apply _ | apply sort_by_key_sorted].
Qed.

End ScorerFacts.

(** C1: whatever the order in which the candidate set is iterated, the
    ranked output lists the candidates of the set, each once, every
    candidate before all candidates of lower score and before the
    candidates of equal score that are greater in the order of strings; two
    runs on the same candidate set and the same list of seed words return
    the same sequence. *)
Theorem sort_by_likelihood_ranked_deterministic
    (order1 order2 : gset string -> list string)
    (wordlist : gset string) (base_words : list string) :
  Scorer.iteration_order order1 ->
  Scorer.iteration_order order2 ->
  Scorer.sort_by_likelihood order1 wordlist base_words ≡ₚ elements wordlist /\
  StronglySorted (Scorer.ranked_before base_words)
                 (Scorer.sort_by_likelihood order1 wordlist base_words) /\
  Scorer.sort_by_likelihood order2 wordlist base_words
    = Scorer.sort_by_likelihood order1 wordlist base_words.
Proof.
  intros H1 H2. split; [| split].
  - by rewrite sort_by_likelihood_perm.
  - by apply sort_by_likelihood_ranked.
  - unfold Scorer.sort_by_likelihood. cbv zeta. f_equal.
    apply sort_by_key_unique, Permutation_map.
    by rewrite (H1 wordlist), (H2 wordlist).
Qed.

Lemma sort_by_likelihood_ranked_deterministic_witness :
  Scorer.sort_by_likelihood (fun X => reverse (elements X))
      {[ "admin2024"; "Admin1"; "zz"; "aa"; "password" ]} ["admin"]
  = Scorer.sort_by_likelihood elements
      {[ "admin2024"; "Admin1"; "zz"; "aa"; "password" ]} ["admin"].
Proof.
  apply (sort_by_likelihood_ranked_deterministic
           elements (fun X => reverse (elements X))).
  - intros X. reflexivity.
  - intros X. apply reverse_Permutation.
Defined.


(** ** More on the pattern expander: limit, shape and completeness *)

Section PatternExpansion.
Import PyStr Generator PatternShape.

Lemma append_nil_r (s : string) : s ++ "" = s.
Proof.
  induction s as [|c s IH]; [reflexivity |].
  change (String c (s ++ "") = String c s). by rewrite IH.
Qed.

Lemma append_assoc (s t u : string) : (s ++ t) ++ u = s ++ t ++ u.
Proof.
  induction s as [|c s IH]; [reflexivity |].
  change (String c ((s ++ t) ++ u) = String c (s ++ t ++ u)). by rewrite IH.
Qed.

Lemma size_add_le (x : string) (m : gset string) : (size (add x m) <= S (size m))%nat.
Proof.
  unfold add. rewrite size_union_alt, size_singleton.
  pose proof (subseteq_size (m ∖ {[x]}) m (subseteq_difference_l _ _ _ (reflexivity _))).
  lia.
Qed.

(** A loop keeps a property of the set that every run of its body keeps. *)
Lemma foldl_preserves {B} (Q : gset string -> Prop) (step : gset string -> B -> gset string)
    (l : list B) :
  (forall m b, Q m -> Q (step m b)) -> forall m, Q m -> Q (foldl step m l).
Proof.
  intros Hstep. induction l as [|b l IH]; intros m Hm; simpl; [done |].
  apply IH, Hstep, Hm.
Qed.

Lemma foldl_invariant_in {B} (P : string -> Prop) (step : gset string -> B -> gset string)
    (l : list B) :
  (forall results b s, b ∈ l -> s ∈ step results b -> s ∈ results \/ P s) ->
  forall results s, s ∈ foldl step results l -> s ∈ results \/ P s.
Proof.
  induction l as [|b l IH]; intros Hstep results s Hs; simpl in Hs; [by left |].
  apply IH in Hs as [Hs | Hs]; [| by right |].
  - apply Hstep in Hs; [done | by left].
  - intros results' b' s' Hb'. apply Hstep. by right.
Qed.

Lemma _generate_size_limit (limit : Z) (pattern : string) :
  forall current results,
    Z.of_nat (size results) <= Z.max 0 limit ->
    Z.of_nat (size (_generate limit pattern current results)) <= Z.max 0 limit.
Proof.
  induction pattern as [|char remaining IH]; intros current results Hsize.
  - rewrite _generate_nil.
    destruct (Z.leb_spec limit (Z.of_nat (size results))); [done |].
    pose proof (size_add_le current results). lia.
  - rewrite _generate_cons.
    destruct (Z.leb_spec limit (Z.of_nat (size results))); [done |].
    destruct (dict_get mappings char) as [cls|]; [| by apply IH].
    apply (foldl_preserves (fun m => Z.of_nat (size m) <= Z.max 0 limit)); [| done].
    intros m b Hm. by apply IH.
Qed.

Lemma _generate_extensive (limit : Z) (pattern : string) :
  forall current results, results ⊆ _generate limit pattern current results.
Proof.
  induction pattern as [|char remaining IH]; intros current results.
  - rewrite _generate_nil.
    destruct (limit <=? Z.of_nat (size results)); [done | apply add_extensive].
  - rewrite _generate_cons.
    destruct (limit <=? Z.of_nat (size results)); [done |].
    destruct (dict_get mappings char) as [cls|]; [| apply IH].
    apply foldl_extensive. intros m b. apply IH.
Qed.

Lemma _generate_sound (limit : Z) (pattern : string) :
  forall current results s,
    s ∈ _generate limit pattern current results ->
    s ∈ results \/ exists t, t ∈ expansions pattern /\ s = current ++ t.
Proof.
  induction pattern as [|char remaining IH]; intros current results s Hs.
  - rewrite _generate_nil in Hs.
    destruct (limit <=? Z.of_nat (size results)); [by left |].
    apply elem_of_add in Hs as [-> | Hs]; [right | by left].
    exists "". split; [by left | by rewrite append_nil_r].
  - rewrite _generate_cons in Hs.
    destruct (limit <=? Z.of_nat (size results)); [by left |].
    simpl expansions. unfold choices.
    destruct (dict_get mappings char) as [cls|].
    + revert results s Hs. apply foldl_invariant_in.
      intros results replacement s Hin Hs.
      apply IH in Hs as [Hs | (t & Ht & ->)]; [by left | right].
      exists (String replacement t). split.
      * apply list_elem_of_In, in_flat_map. exists replacement.
        split; [by apply list_elem_of_In |].
        apply in_map. by apply list_elem_of_In.
      * by rewrite append_assoc.
    + apply IH in Hs as [Hs | (t & Ht & ->)]; [by left | right].
      exists (String char t). split.
      * simpl. rewrite app_nil_r. apply list_elem_of_In, in_map.
        by apply list_elem_of_In.
      * by rewrite append_assoc.
Qed.

Lemma _generate_complete (limit : Z) (pattern : string) :
  forall current results t,
    Z.of_nat (size (_generate limit pattern current results)) < limit ->
    t ∈ expansions pattern ->
    current ++ t ∈ _generate limit pattern current results.
Proof.
  induction pattern as [|char remaining IH]; intros current results t Hsize Ht.
  - rewrite _generate_nil in *.
    destruct (Z.leb_spec limit (Z.of_nat (size results))); [lia |].
    apply list_elem_of_singleton in Ht as ->.
    rewrite append_nil_r. apply elem_of_add. by left.
  - rewrite _generate_cons in *.
    destruct (Z.leb_spec limit (Z.of_nat (size results))); [lia |].
    simpl in Ht. apply list_elem_of_In, in_flat_map in Ht as (r & Hr & Ht).
    apply in_map_iff in Ht as (t' & <- & Ht').
    apply list_elem_of_In in Hr, Ht'. unfold choices in Hr.
    destruct (dict_get mappings char) as [cls|].
    + apply list_elem_of_split in Hr as (l1 & l2 & Hl).
      rewrite Hl, foldl_app in *. simpl in *.
      set (step := fun results replacement =>
             _generate limit remaining (current ++ of_char replacement) results) in *.
      assert (Hext : step (foldl step results l1) r ⊆ foldl step (step (foldl step results l1) r) l2).
      { apply foldl_extensive. intros m b. apply _generate_extensive. }
      apply Hext. unfold step at 1.
      change (String r t') with (of_char r ++ t'). rewrite <- append_assoc.
      apply IH; [| done].
      apply subseteq_size in Hext. unfold step in *. lia.
    + apply list_elem_of_singleton in Hr as ->.
      change (String char t') with (of_char char ++ t'). rewrite <- append_assoc.
      by apply IH.
Qed.

Lemma length_chars_to_use (cls : string) : (length (chars_to_use cls) <= 5)%nat.
Proof.
  unfold chars_to_use, slice_to, chars, len.
  destruct (Z.ltb_spec 5 (Z.of_nat (String.length cls))) as [? | Hle]; simpl.
  - rewrite length_take. lia.
  - clear -Hle. revert Hle.
    assert (length (list_ascii_of_string cls) = String.length cls) as ->; [| lia].
    induction cls; simpl; congruence.
Qed.

Lemma length_expansions (pattern : string) :
  (length (expansions pattern) <= 5 ^ wildcards pattern)%nat.
Proof.
  induction pattern as [|char remaining IH]; [simpl; lia |].
  cbn [expansions wildcards].
  assert (Hflat : forall l : list ascii,
             length (flat_map (fun r => map (String r) (expansions remaining)) l)
             = (length l * length (expansions remaining))%nat).
  { induction l as [|r l IHl]; simpl; [done |].
    rewrite List.length_app, List.length_map, IHl. lia. }
  rewrite Hflat. unfold choices.
  destruct (dict_get mappings char) as [cls|].
  - rewrite Nat.pow_succ_r'.
    apply Nat.mul_le_mono; [apply length_chars_to_use | exact IH].
  - simpl. lia.
Qed.

Lemma generate_from_pattern_sound (pattern : string) (limit : Z) (s : string) :
  s ∈ generate_from_pattern pattern limit -> s ∈ expansions pattern.
Proof.
  intros Hs. apply _generate_sound in Hs as [Hs | (t & Ht & ->)].
  - by apply not_elem_of_empty in Hs.
  - exact Ht.
Qed.

Lemma generate_from_pattern_size_pow (pattern : string) (limit : Z) :
  (size (generate_from_pattern pattern limit) <= 5 ^ wildcards pattern)%nat.
Proof.
  etrans; [| apply length_expansions].
  etrans; [| apply (size_list_to_set_le (expansions pattern))].
  apply subseteq_size. intros s Hs.
  apply elem_of_list_to_set. by apply generate_from_pattern_sound in Hs.
Qed.

End PatternExpansion.

(** X1: the expander never returns more than [limit] strings, and none at
    all when the limit is zero or negative. *)
Theorem generate_from_pattern_within_limit (pattern : string) (limit : Z) :
  Z.of_nat (size (Generator.generate_from_pattern pattern limit)) <= Z.max 0 limit /\
  (limit <= 0 -> Generator.generate_from_pattern pattern limit = ∅).
Proof.
  assert (H : Z.of_nat (size (Generator.generate_from_pattern pattern limit))
              <= Z.max 0 limit).
  { apply _generate_size_limit. rewrite size_empty. lia. }
  split; [exact H |].
  intros Hle. apply leibniz_equiv, size_empty_inv. lia.
Qed.

Lemma generate_from_pattern_within_limit_witness :
  Generator.generate_from_pattern "pw%^" 0 = ∅.
Proof. apply (proj2 (generate_from_pattern_within_limit "pw%^" 0)). lia. Defined.

(** X2: every string returned for a pattern takes, position by position,
    the pattern's own character at a literal and one of the characters of
    the truncated class at a wildcard; there are at most five choices per
    wildcard, so at most [5 ^ wildcards] strings whatever the limit. *)
Theorem generate_from_pattern_shape (pattern : string) (limit : Z) :
  (forall s, s ∈ Generator.generate_from_pattern pattern limit ->
             s ∈ PatternShape.expansions pattern) /\
  (size (Generator.generate_from_pattern pattern limit)
     <= 5 ^ PatternShape.wildcards pattern)%nat.
Proof.
  split.
  - intros s. apply generate_from_pattern_sound.
  - apply generate_from_pattern_size_pow.
Qed.

Lemma generate_from_pattern_shape_witness :
  "pw3$" ∈ PatternShape.expansions "pw%^".
Proof.
  apply (proj1 (generate_from_pattern_shape "pw%^" 1000)).
  apply (bool_decide_unpack _). vm_compute. exact I.
Defined.

(** X3: unless the limit is reached, nothing is left out: when fewer than
    [limit] strings are returned, every expansion of the pattern is among
    them. *)
Theorem generate_from_pattern_complete (pattern : string) (limit : Z) (s : string) :
  Z.of_nat (size (Generator.generate_from_pattern pattern limit)) < limit ->
  s ∈ PatternShape.expansions pattern ->
  s ∈ Generator.generate_from_pattern pattern limit.
Proof.
  intros Hsize Hs.
  apply (_generate_complete limit pattern "" ∅ s Hsize Hs).
Qed.

Lemma generate_from_pattern_complete_witness :
  "pw4%" ∈ Generator.generate_from_pattern "pw%^" 1000.
Proof.
  apply generate_from_pattern_complete.
  - vm_compute. reflexivity.
  - apply (bool_decide_unpack _). vm_compute. exact I.
Defined.

(** X4: a pattern whose [5 ^ wildcards] is below the limit is expanded in
    full: the result is exactly the set of its expansions.  Under the
    default limit of 1000 this covers every pattern with at most four
    wildcards. *)
Theorem generate_from_pattern_full (pattern : string) (limit : Z) :
  Z.of_nat (5 ^ PatternShape.wildcards pattern) < limit ->
  Generator.generate_from_pattern pattern limit
    = list_to_set (PatternShape.expansions pattern).
Proof.
  intros Hpow. apply set_eq. intros s. rewrite elem_of_list_to_set. split.
  - apply generate_from_pattern_sound.
  - apply (_generate_complete limit pattern "" ∅ s).
    pose proof (generate_from_pattern_size_pow pattern limit) as Hsize.
    unfold Generator.generate_from_pattern in Hsize. lia.
Qed.

Lemma generate_from_pattern_full_witness :
  Generator.generate_from_pattern "pw@@@%" 1000
    = list_to_set (PatternShape.expansions "pw@@@%").
Proof. apply generate_from_pattern_full. vm_compute. reflexivity. Defined.


(** ** More on the combination generator *)

Section CombinationShapeFacts.
Import PyStr Generator CombinationShape.

Lemma slice_to_30 {A} (l : list A) : slice_to 30 l = take 30 l.
Proof. reflexivity. Qed.

Lemma slice_to_10 {A} (l : list A) : slice_to 10 l = take 10 l.
Proof. reflexivity. Qed.

(** [itertools.combinations] pairs every element with the later ones. *)
Lemma combinations2_lookup {A} (l : list A) :
  forall (i j : nat) (x y : A),
    l !! i = Some x -> l !! j = Some y -> (i < j)%nat ->
    (x, y) ∈ combinations2 l.
Proof.
  induction l as [|a l IH]; intros i j x y Hi Hj Hij; [done |].
  destruct j as [|j]; [lia |]. simpl in Hj. simpl.
  apply elem_of_app. destruct i as [|i]; simpl in Hi.
  - left. injection Hi as ->. apply list_elem_of_fmap. exists y.
    split; [done | by eapply list_elem_of_lookup_2].
  - right. apply (IH i j); [done | done | lia].
Qed.

Lemma combinations2_elem_of {A} (l : list A) (x y : A) :
  (x, y) ∈ combinations2 l -> x ∈ l /\ y ∈ l.
Proof.
  induction l as [|a l IH]; simpl; [by intros ?%elem_of_nil |].
  rewrite elem_of_app. intros [H | H].
  - apply list_elem_of_fmap in H as (z & [= -> ->] & Hz).
    split; [by left | by right].
  - apply IH in H as [? ?]. split; by right.
Qed.

Lemma combinations3_lookup {A} (l : list A) :
  forall (i j k : nat) (x y z : A),
    l !! i = Some x -> l !! j = Some y -> l !! k = Some z ->
    (i < j)%nat -> (j < k)%nat ->
    (x, y, z) ∈ combinations3 l.
Proof.
  induction l as [|a l IH]; intros i j k x y z Hi Hj Hk Hij Hjk; [done |].
  destruct j as [|j]; [lia |]. destruct k as [|k]; [lia |].
  simpl in Hj, Hk. simpl. apply elem_of_app. destruct i as [|i]; simpl in Hi.
  - left. injection Hi as ->. apply list_elem_of_fmap. exists (y, z).
    split; [done |]. apply (combinations2_lookup l j k); [done | done | lia].
  - right. apply (IH i j k); [done | done | done | lia | lia].
Qed.

Lemma combinations3_elem_of {A} (l : list A) (x y z : A) :
  (x, y, z) ∈ combinations3 l -> x ∈ l /\ y ∈ l /\ z ∈ l.
Proof.
  induction l as [|a l IH]; simpl; [by intros ?%elem_of_nil |].
  rewrite elem_of_app. intros [H | H].
  - apply list_elem_of_fmap in H as ([y' z'] & [= -> -> ->] & Hyz).
    apply combinations2_elem_of in Hyz as [? ?].
    split; [by left | split; by right].
  - apply IH in H as (? & ? & ?). split; [by right | split; by right].
Qed.

(** What one run of a loop body adds, whatever the set, is in the result. *)
Lemma foldl_adds {B} (step : gset string -> B -> gset string) (l : list B)
    (b : B) (s : string) :
  (forall m b', m ⊆ step m b') -> (forall m, s ∈ step m b) -> b ∈ l ->
  forall m, s ∈ foldl step m l.
Proof.
  intros Hext Hadd Hb. induction l as [|a l IH]; intros m; [by apply elem_of_nil in Hb |].
  simpl. apply elem_of_cons in Hb as [<- | Hb]; [| by apply IH].
  apply (foldl_extensive step l Hext), Hadd.
Qed.

Lemma generate_combinations_steps (words : list string) (max_length : Z) :
  generate_combinations words max_length =
  let pairs := foldl (pair_step max_length) ∅ (combinations2 (take 30 words)) in
  if 3 <=? Z.of_nat (length (take 30 words)) then
    foldl (triple_step max_length) pairs (combinations3 (take 10 (take 30 words)))
  else pairs.
Proof. reflexivity. Qed.

Lemma elem_of_pair_step max_length m w1 w2 s :
  s ∈ pair_step max_length m (w1, w2) <->
  s ∈ m \/ (len w1 + len w2 <= max_length /\ s ∈ pair_forms w1 w2).
Proof.
  unfold pair_step, pair_forms.
  destruct (Z.leb_spec (len w1 + len w2) max_length) as [Hle | Hgt].
  - rewrite !elem_of_add, !elem_of_cons, elem_of_nil. tauto.
  - split; [by left | intros [? | [? _]]; [done | lia]].
Qed.

Lemma elem_of_triple_step max_length m c1 c2 c3 s :
  s ∈ triple_step max_length m (c1, c2, c3) <->
  s ∈ m \/ (len (c1 ++ c2 ++ c3) <= max_length /\ s ∈ triple_forms c1 c2 c3).
Proof.
  unfold triple_step, triple_forms.
  destruct (Z.leb_spec (len (c1 ++ c2 ++ c3)) max_length) as [Hle | Hgt].
  - rewrite !elem_of_add, !elem_of_cons, elem_of_nil. tauto.
  - split; [by left | intros [? | [? _]]; [done | lia]].
Qed.

Lemma pair_step_extensive max_length m p : m ⊆ pair_step max_length m p.
Proof. destruct p as [w1 w2]. intros s Hs. apply elem_of_pair_step. by left. Qed.

Lemma triple_step_extensive max_length m t : m ⊆ triple_step max_length m t.
Proof. destruct t as [[c1 c2] c3]. intros s Hs. apply elem_of_triple_step. by left. Qed.

End CombinationShapeFacts.

(** X5: with fewer than two words, or with a negative length budget, the
    combination generator returns the empty set. *)
Theorem generate_combinations_nothing (words : list string) (max_length : Z) :
  (length words < 2)%nat \/ max_length < 0 ->
  Generator.generate_combinations words max_length = ∅.
Proof.
  intros [Hlen | Hneg].
  - destruct words as [|w [|w' words]]; [reflexivity | reflexivity | simpl in Hlen; lia].
  - rewrite generate_combinations_steps. cbv zeta.
    assert (Hpairs : foldl (CombinationShape.pair_step max_length) ∅
                           (Generator.combinations2 (take 30 words)) = ∅).
    { apply (foldl_preserves (fun m => m = ∅)); [| done].
      intros m [w1 w2] ->. unfold CombinationShape.pair_step.
      pose proof (len_nonneg w1). pose proof (len_nonneg w2).
      destruct (Z.leb_spec (PyStr.len w1 + PyStr.len w2) max_length); [lia | done]. }
    rewrite Hpairs. destruct (3 <=? _); [| done].
    apply (foldl_preserves (fun m => m = ∅)); [| done].
    intros m [[c1 c2] c3] ->. unfold CombinationShape.triple_step. cbv zeta.
    pose proof (len_nonneg (c1 ++ c2 ++ c3)).
    destruct (Z.leb_spec (PyStr.len (c1 ++ c2 ++ c3)) max_length); [lia | done].
Qed.

Lemma generate_combinations_nothing_witness :
  Generator.generate_combinations ["sun"] 32 = ∅ /\
  Generator.generate_combinations ["sun"; "moon"] (-1) = ∅.
Proof.
  split; apply generate_combinations_nothing; [left; simpl; lia | right; lia].
Defined.

(** X6: any two of the first 30 words whose lengths sum to at most
    [max_length] are combined: with [w1] standing before [w2] in the list,
    all six forms of the pair are in the result. *)
Theorem generate_combinations_pairs
    (words : list string) (max_length : Z) (i j : nat) (w1 w2 s : string) :
  words !! i = Some w1 -> words !! j = Some w2 ->
  (i < j)%nat -> (j < 30)%nat ->
  PyStr.len w1 + PyStr.len w2 <= max_length ->
  s ∈ CombinationShape.pair_forms w1 w2 ->
  s ∈ Generator.generate_combinations words max_length.
Proof.
  intros Hi Hj Hij Hj30 Hlen Hs.
  rewrite generate_combinations_steps. cbv zeta.
  assert (Hpairs : s ∈ foldl (CombinationShape.pair_step max_length) ∅
                             (Generator.combinations2 (take 30 words))).
  { apply (foldl_adds _ _ (w1, w2)).
    - intros m p. apply pair_step_extensive.
    - intros m. apply elem_of_pair_step. by right.
    - apply (combinations2_lookup _ i j); [| | done];
        rewrite lookup_take_lt; (done || lia). }
  destruct (3 <=? _); [| done].
  eapply foldl_extensive; [| exact Hpairs].
  intros m t. apply triple_step_extensive.
Qed.

Lemma generate_combinations_pairs_witness :
  "Moon-Star" ∈ Generator.generate_combinations ["Sun"; "Moon"; "Star"] 8.
Proof.
  apply (generate_combinations_pairs _ 8 1 2 "Moon" "Star");
    [reflexivity | reflexivity | lia | lia | vm_compute; discriminate |].
  unfold CombinationShape.pair_forms. do 5 right. left.
Defined.

(** X7: any three of the first 10 words, taken in list order, whose
    concatenation has length at most [max_length] are combined: the plain
    and the capitalized concatenation are in the result. *)
Theorem generate_combinations_triples
    (words : list string) (max_length : Z) (i j k : nat) (c1 c2 c3 s : string) :
  words !! i = Some c1 -> words !! j = Some c2 -> words !! k = Some c3 ->
  (i < j)%nat -> (j < k)%nat -> (k < 10)%nat ->
  PyStr.len (c1 ++ c2 ++ c3) <= max_length ->
  s ∈ CombinationShape.triple_forms c1 c2 c3 ->
  s ∈ Generator.generate_combinations words max_length.
Proof.
  intros Hi Hj Hk Hij Hjk Hk10 Hlen Hs.
  rewrite generate_combinations_steps. cbv zeta.
  assert (Hlen3 : (3 <= length (take 30 words))%nat).
  { apply lookup_lt_Some in Hk. rewrite length_take. lia. }
  destruct (Z.leb_spec 3 (Z.of_nat (length (take 30 words)))); [| lia].
  apply (foldl_adds _ _ (c1, c2, c3)).
  - intros m t. apply triple_step_extensive.
  - intros m. apply elem_of_triple_step. by right.
  - apply (combinations3_lookup _ i j k); [| | | done | done];
      rewrite !lookup_take_lt; (done || lia).
Qed.

Lemma generate_combinations_triples_witness :
  "SunMoonStar" ∈ Generator.generate_combinations ["sun"; "moon"; "star"] 11.
Proof.
  apply (generate_combinations_triples _ 11 0 1 2 "sun" "moon" "star");
    [reflexivity | reflexivity | reflexivity | lia | lia | lia
    | vm_compute; discriminate |].
  unfold CombinationShape.triple_forms. right. left.
Defined.

(** X8: nothing else is emitted: every string of the result is one of the
    six forms of two of the first 30 words whose lengths sum to at most
    [max_length], or one of the two forms of three of the first 10 words
    whose concatenation has length at most [max_length]. *)
Theorem generate_combinations_only
    (words : list string) (max_length : Z) (s : string) :
  s ∈ Generator.generate_combinations words max_length ->
  (exists w1 w2, w1 ∈ take 30 words /\ w2 ∈ take 30 words /\
                 PyStr.len w1 + PyStr.len w2 <= max_length /\
                 s ∈ CombinationShape.pair_forms w1 w2) \/
  (exists c1 c2 c3, c1 ∈ take 10 words /\ c2 ∈ take 10 words /\ c3 ∈ take 10 words /\
                    PyStr.len (c1 ++ c2 ++ c3) <= max_length /\
                    s ∈ CombinationShape.triple_forms c1 c2 c3).
Proof.
  rewrite generate_combinations_steps. cbv zeta.
  set (P2 := fun s => exists w1 w2, w1 ∈ take 30 words /\ w2 ∈ take 30 words /\
                 PyStr.len w1 + PyStr.len w2 <= max_length /\
                 s ∈ CombinationShape.pair_forms w1 w2).
  set (P3 := fun s => exists c1 c2 c3, c1 ∈ take 10 words /\ c2 ∈ take 10 words /\
                 c3 ∈ take 10 words /\
                 PyStr.len (c1 ++ c2 ++ c3) <= max_length /\
                 s ∈ CombinationShape.triple_forms c1 c2 c3).
  assert (Hpairs : forall s, s ∈ foldl (CombinationShape.pair_step max_length) ∅
                                   (Generator.combinations2 (take 30 words)) ->
                             s ∈ (∅ : gset string) \/ P2 s).
  { apply foldl_invariant_in. intros results [w1 w2] s' Hin Hs.
    apply elem_of_pair_step in Hs as [Hs | [Hlen Hs]]; [by left | right].
    apply combinations2_elem_of in Hin as [? ?]. by exists w1, w2. }
  assert (Htriples : forall m s,
             s ∈ foldl (CombinationShape.triple_step max_length) m
                       (Generator.combinations3 (take 10 (take 30 words))) ->
             s ∈ m \/ P3 s).
  { apply foldl_invariant_in. intros results [[c1 c2] c3] s' Hin Hs.
    apply elem_of_triple_step in Hs as [Hs | [Hlen Hs]]; [by left | right].
    rewrite take_take in Hin. change (10 `min` 30)%nat with 10%nat in Hin.
    apply combinations3_elem_of in Hin as (? & ? & ?). by exists c1, c2, c3. }
  intros Hs. fold (P2 s). fold (P3 s).
  destruct (3 <=? _).
  - apply Htriples in Hs as [Hs | Hs]; [| by right].
    apply Hpairs in Hs as [Hs | Hs]; [by apply not_elem_of_empty in Hs | by left].
  - apply Hpairs in Hs as [Hs | Hs]; [by apply not_elem_of_empty in Hs | by left].
Qed.

Lemma generate_combinations_only_witness :
  (exists w1 w2, w1 ∈ take 30 ["sun"; "moon"] /\ w2 ∈ take 30 ["sun"; "moon"] /\
                 PyStr.len w1 + PyStr.len w2 <= 32 /\
                 "sun_moon" ∈ CombinationShape.pair_forms w1 w2) \/
  (exists c1 c2 c3, c1 ∈ take 10 ["sun"; "moon"] /\ c2 ∈ take 10 ["sun"; "moon"] /\
                    c3 ∈ take 10 ["sun"; "moon"] /\
                    PyStr.len (c1 ++ c2 ++ c3) <= 32 /\
                    "sun_moon" ∈ CombinationShape.triple_forms c1 c2 c3).
Proof.
  apply (generate_combinations_only ["sun"; "moon"] 32 "sun_moon").
  apply (bool_decide_unpack _). vm_compute. exact I.
Defined.


(** ** More on the mutation engine *)

Section MutationBounds.
Import PyStr Generator.

Lemma size_union_le (X Y : gset string) : (size (X ∪ Y) <= size X + size Y)%nat.
Proof.
  rewrite size_union_alt.
  pose proof (subseteq_size (Y ∖ X) Y (subseteq_difference_l _ _ _ (reflexivity _))).
  lia.
Qed.

(** A loop whose body adds at most [k] members adds at most [k] per round. *)
Lemma foldl_size {B} (step : gset string -> B -> gset string) (k : nat) (l : list B) :
  (forall m b, (size (step m b) <= size m + k)%nat) ->
  forall m, (size (foldl step m l) <= size m + k * length l)%nat.
Proof.
  intros Hstep. induction l as [|b l IH]; intros m; simpl; [lia |].
  specialize (IH (step m b)). specialize (Hstep m b). lia.
Qed.

Lemma size_add2_le (x y : string) (m : gset string) :
  (size (add x (add y m)) <= size m + 2)%nat.
Proof.
  pose proof (size_add_le x (add y m)). pose proof (size_add_le y m). lia.
Qed.

Lemma add_suffixes_size word level m :
  (size (add_suffixes word level m)
     <= size m + (if (level =? 1)%Z then 20 else 60))%nat.
Proof.
  unfold add_suffixes.
  etrans; [apply (foldl_size _ 2); intros; apply size_add2_le |].
  destruct (level =? 1); simpl; lia.
Qed.

Lemma add_years_size word year m : (size (add_years word year m) <= size m + 10)%nat.
Proof.
  unfold add_years.
  etrans; [apply (foldl_size _ 2); intros; apply size_add2_le |].
  simpl. lia.
Qed.

Lemma add_level2_size order cfg word m :
  (size (add_level2 order cfg word m) <= size m + 13)%nat.
Proof.
  unfold add_level2. cbv zeta.
  pose proof (_apply_leetspeak_size order word 5 ltac:(lia)) as Hleet.
  set (nv := filter_chars (fun c => negb (is_vowel c)) word).
  set (m1 := add (reverse word) m).
  set (m2 := if len word <=? 8 then add (word ++ word) m1 else m1).
  set (m3 := if negb (String.eqb nv "") && (3 <=? len nv) then add nv m2 else m2).
  assert ((size m1 <= size m + 1)%nat).
  { pose proof (size_add_le (reverse word) m). unfold m1. lia. }
  assert ((size m2 <= size m1 + 1)%nat).
  { pose proof (size_add_le (word ++ word) m1).
    unfold m2. destruct (len word <=? 8); lia. }
  assert ((size m3 <= size m2 + 1)%nat).
  { pose proof (size_add_le nv m2). unfold m3. destruct (_ && _); lia. }
  destruct (leet cfg); [| lia].
  pose proof (size_union_le m3 (_apply_leetspeak order word 5)). lia.
Qed.

Lemma add_level3_size word m : (size (add_level3 word m) <= size m + 22)%nat.
Proof.
  unfold add_level3.
  set (m1 := foldl _ m COMMON_PREFIXES).
  assert ((size m1 <= size m + 20)%nat).
  { unfold m1. etrans; [apply (foldl_size _ 2) |]; [| simpl; lia].
    intros m' b. destruct (negb _); [apply size_add2_le | lia]. }
  pose proof (size_add2_le (replace "o" "0" (replace "e" "3" word))
                           (replace "s" "$" (replace "a" "@" word)) m1).
  lia.
Qed.

Lemma mutate_word_size order cfg year word level :
  (size (mutate_word order cfg year word level)
     <= 15 + (if (level =? 1)%Z then 20 else 60)
        + (if (2 <=? level)%Z then 13 else 0) + (if (3 <=? level)%Z then 22 else 0))%nat.
Proof.
  unfold mutate_word. destruct (String.eqb word "").
  { rewrite size_singleton. lia. }
  set (m0 := add (title word) _).
  assert ((size m0 <= 5)%nat).
  { unfold m0.
    pose proof (size_add2_le (title word) (capitalize word)
                  (add (upper word) (add (lower word) {[word]}))).
    pose proof (size_add2_le (upper word) (lower word) {[word]}).
    rewrite size_singleton in *. lia. }
  pose proof (add_suffixes_size word level m0).
  pose proof (add_years_size word year (add_suffixes word level m0)).
  set (m2 := add_years word year _) in *.
  pose proof (add_level2_size order cfg word m2).
  set (m3 := if 2 <=? level then _ else m2).
  assert ((size m3 <= size m2 + (if (2 <=? level)%Z then 13 else 0))%nat).
  { unfold m3. destruct (2 <=? level); lia. }
  pose proof (add_level3_size word m3).
  destruct (3 <=? level); lia.
Qed.

(** *** Case-insensitive prefixes *)

Lemma lower_char_idem (c : ascii) :
  lower_char (lower_char c) = lower_char c /\ lower_char (upper_char c) = lower_char c.
Proof. destruct c as [[] [] [] [] [] [] [] []]; split; reflexivity. Qed.

Lemma lower_app (s t : string) : lower (s ++ t) = lower s ++ lower t.
Proof.
  induction s as [|c s IH]; [reflexivity |].
  change (String (lower_char c) (lower (s ++ t))
          = String (lower_char c) (lower s ++ lower t)).
  by rewrite IH.
Qed.

Lemma lower_lower (s : string) : lower (lower s) = lower s.
Proof.
  induction s as [|c s IH]; [reflexivity |].
  change (String (lower_char (lower_char c)) (lower (lower s))
          = String (lower_char c) (lower s)).
  by rewrite IH, (proj1 (lower_char_idem c)).
Qed.

Lemma lower_upper (s : string) : lower (upper s) = lower s.
Proof.
  induction s as [|c s IH]; [reflexivity |].
  change (String (lower_char (upper_char c)) (lower (upper s))
          = String (lower_char c) (lower s)).
  by rewrite IH, (proj2 (lower_char_idem c)).
Qed.

Lemma lower_capitalize (s : string) : lower (capitalize s) = lower s.
Proof.
  destruct s as [|c s]; [reflexivity |].
  change (String (lower_char (upper_char c)) (lower (lower s))
          = String (lower_char c) (lower s)).
  by rewrite lower_lower, (proj2 (lower_char_idem c)).
Qed.

Lemma lower_title_from (b : bool) (s : string) : lower (title_from b s) = lower s.
Proof.
  revert b. induction s as [|c s IH]; intros b; [reflexivity |].
  simpl. destruct (islower c || isupper c).
  - change (String (lower_char (if b then lower_char c else upper_char c))
                   (lower (title_from true s))
            = String (lower_char c) (lower s)).
    rewrite IH. destruct b; by rewrite ?(proj1 (lower_char_idem c)), ?(proj2 (lower_char_idem c)).
  - change (String (lower_char c) (lower (title_from false s))
            = String (lower_char c) (lower s)).
    by rewrite IH.
Qed.

Lemma prefix_app (s t : string) : String.prefix s (s ++ t) = true.
Proof.
  induction s as [|c s IH]; [by destruct t |].
  change (String.prefix (String c s) (String c (s ++ t)) = true).
  simpl. destruct (ascii_dec c c); [exact IH | done].
Qed.

Lemma prefix_refl (s : string) : String.prefix s s = true.
Proof. rewrite <- (append_nil_r s) at 2. apply prefix_app. Qed.

(** The mutations of a level below 2 read [word] or [capitalize word]
    followed by some suffix, up to case. *)
Lemma mutate_word_low_prefix order cfg year word level m :
  level < 2 ->
  m ∈ mutate_word order cfg year word level ->
  startswith (lower word) (lower m) = true.
Proof.
  intros Hlevel. unfold mutate_word, startswith.
  destruct (String.eqb word "").
  { intros ->%elem_of_singleton. apply prefix_refl. }
  destruct (Z.leb_spec 2 level); [lia |].
  destruct (Z.leb_spec 3 level); [lia |].
  unfold add_years, add_suffixes. intros Hm.
  apply (foldl_invariant (fun m => String.prefix (lower word) (lower m) = true))
    in Hm as [Hm | Hm]; [| done |].
  - apply (foldl_invariant (fun m => String.prefix (lower word) (lower m) = true))
      in Hm as [Hm | Hm]; [| done |].
    + rewrite !elem_of_add, elem_of_singleton in Hm.
      destruct Hm as [-> | [-> | [-> | [-> | ->]]]];
        rewrite ?lower_title_from, ?lower_capitalize, ?lower_upper, ?lower_lower;
        try apply prefix_refl.
      unfold title. rewrite lower_title_from. apply prefix_refl.
    + intros results suffix s. rewrite !elem_of_add.
      intros [-> | [-> | Hs]]; [right | right | by left];
        rewrite lower_app, ?lower_capitalize; apply prefix_app.
  - intros results offset s. rewrite !elem_of_add.
    intros [-> | [-> | Hs]]; [right | right | by left];
      rewrite lower_app; apply prefix_app.
Qed.

(** *** Leetspeak variants *)

Lemma length_replace (old new : ascii) (s : string) :
  String.length (replace old new s) = String.length s.
Proof. apply length_map_chars. Qed.

Lemma slice_to_subseteq {A} (n : Z) (l : list A) (x : A) :
  x ∈ slice_to n l -> x ∈ l.
Proof.
  unfold slice_to. destruct (0 <=? n); intros H; by apply elem_of_take in H as (? & ?%list_elem_of_lookup_2 & _).
Qed.

Lemma leet_new_variants_length order max_variants char replacements variants (n : nat) :
  Scorer.iteration_order order ->
  (forall v, v ∈ variants -> String.length v = n) ->
  forall v, v ∈ leet_new_variants order max_variants char replacements variants ->
            String.length v = n.
Proof.
  intros Horder Hvar v Hv. unfold leet_new_variants in Hv.
  apply (foldl_invariant_in (fun v => String.length v = n)) in Hv as [Hv | Hv];
    [by apply not_elem_of_empty in Hv | done |].
  intros results variant s Hin Hs.
  apply slice_to_subseteq in Hin. rewrite (Horder variants) in Hin.
  apply elem_of_elements, Hvar in Hin.
  apply (foldl_invariant (fun v => String.length v = n)) in Hs as [Hs | Hs];
    [by left | by right |].
  intros results' replacement s'. rewrite !elem_of_add.
  intros [-> | [-> | Hs']]; [right | right | by left];
    by rewrite length_replace.
Qed.

Lemma leet_loop_length order items word max_variants (n : nat) :
  Scorer.iteration_order order ->
  forall variants,
    (forall v, v ∈ variants -> String.length v = n) ->
    forall v, v ∈ leet_loop order items word max_variants variants ->
              String.length v = n.
Proof.
  intros Horder. induction items as [|[char replacements] items IH];
    intros variants Hvar v Hv; simpl in Hv; [by apply Hvar |].
  destruct (char_in char (lower word)); [| by apply (IH variants)].
  assert (Hnew : forall v, v ∈ variants ∪
                   leet_new_variants order max_variants char replacements variants ->
                   String.length v = n).
  { intros v' [Hv' | Hv']%elem_of_union; [by apply Hvar |].
    by apply (leet_new_variants_length order max_variants char replacements variants). }
  destruct (_ <? _); [by apply Hnew | by apply (IH _ Hnew)].
Qed.

Lemma leet_loop_untouched order items word max_variants variants :
  Forall (fun item => char_in (fst item) (lower word) = false) items ->
  leet_loop order items word max_variants variants = variants.
Proof.
  induction 1 as [|[char replacements] items Hchar _ IH]; [done |].
  simpl in *. by rewrite Hchar.
Qed.

End MutationBounds.

(** X9: from level 1 upwards the mutation levels are nested: a higher
    level returns every mutation of a lower one. *)
Theorem mutate_word_level_mono
    (order : gset string -> list string) (cfg : Config) (current_year : Z)
    (word : string) (level level' : Z) :
  1 <= level -> level <= level' ->
  Generator.mutate_word order cfg current_year word level
    ⊆ Generator.mutate_word order cfg current_year word level'.
Proof.
  intros H1 Hle.
  destruct (decide (level = 1)) as [-> | Hne]; [apply mutate_word_level1_subseteq |].
  unfold Generator.mutate_word. destruct (String.eqb word ""); [done |].
  unfold Generator.add_suffixes.
  destruct (Z.eqb_spec level 1); [lia |]. destruct (Z.eqb_spec level' 1); [lia |].
  destruct (Z.leb_spec 2 level); [| lia]. destruct (Z.leb_spec 2 level'); [| lia].
  destruct (Z.leb_spec 3 level), (Z.leb_spec 3 level'); try lia; try done.
  apply add_level3_extensive.
Qed.

Lemma mutate_word_level_mono_witness :
  Generator.mutate_word elements default_config 2026 "admin" 2
    ⊆ Generator.mutate_word elements default_config 2026 "admin" 3.
Proof. apply mutate_word_level_mono; lia. Defined.

(** X10: the mutation set of a word is small: at most 35 strings at level
    1 and at most 110 at any level, whatever the word. *)
Theorem mutate_word_size_bound
    (order : gset string -> list string) (cfg : Config) (current_year : Z)
    (word : string) (level : Z) :
  (size (Generator.mutate_word order cfg current_year word 1) <= 35)%nat /\
  (size (Generator.mutate_word order cfg current_year word level) <= 110)%nat.
Proof.
  split.
  - pose proof (mutate_word_size order cfg current_year word 1) as H.
    simpl in H. lia.
  - pose proof (mutate_word_size order cfg current_year word level) as H.
    destruct (level =? 1), (2 <=? level), (3 <=? level); lia.
Qed.

(** X11: the word is always one of its own mutations, and the empty word
    has no other mutation at any level. *)
Theorem mutate_word_contains_word
    (order : gset string -> list string) (cfg : Config) (current_year : Z)
    (word : string) (level : Z) :
  word ∈ Generator.mutate_word order cfg current_year word level /\
  Generator.mutate_word order cfg current_year "" level = {[ "" ]}.
Proof.
  split; [| reflexivity].
  unfold Generator.mutate_word. destruct (String.eqb word "").
  { by apply elem_of_singleton. }
  assert (H0 : word ∈ Generator.add (PyStr.title word)
                 (Generator.add (PyStr.capitalize word)
                    (Generator.add (PyStr.upper word)
                       (Generator.add (PyStr.lower word) {[word]})))).
  { rewrite !elem_of_add, elem_of_singleton. tauto. }
  apply (add_suffixes_extensive word level) in H0.
  apply (add_years_extensive word current_year) in H0.
  destruct (2 <=? level); [apply (add_level2_extensive order cfg word) in H0 |];
    (destruct (3 <=? level); [by apply add_level3_extensive | done]).
Qed.

(** X12: below level 2 a mutation of an ASCII word only changes the case
    of the word and appends to it: lower-cased, every mutation starts with
    the lower-cased word.  No reversed, stripped, prefixed or leetspeak
    form appears.  (On ASCII text the case maps of the model are those of
    Python.) *)
Theorem mutate_word_low_levels_extend
    (order : gset string -> list string) (cfg : Config) (current_year : Z)
    (word : string) (level : Z) (m : string) :
  PyStr.isascii word = true ->
  level < 2 ->
  m ∈ Generator.mutate_word order cfg current_year word level ->
  PyStr.startswith (PyStr.lower word) (PyStr.lower m) = true.
Proof. intros _. apply mutate_word_low_prefix. Qed.

Lemma mutate_word_low_levels_extend_witness :
  PyStr.startswith (PyStr.lower "Admin") (PyStr.lower "ADMIN") = true.
Proof.
  apply (mutate_word_low_levels_extend elements default_config 2026 "Admin" 1 "ADMIN").
  - reflexivity.
  - lia.
  - apply (bool_decide_unpack _). vm_compute. exact I.
Defined.

(** X13: a leetspeak variant replaces characters one for one: every
    variant returned has the length of the word. *)
Theorem apply_leetspeak_keeps_length
    (order : gset string -> list string) (word : string) (max_variants : Z)
    (v : string) :
  Scorer.iteration_order order ->
  v ∈ Generator._apply_leetspeak order word max_variants ->
  String.length v = String.length word.
Proof.
  intros Horder Hv. unfold Generator._apply_leetspeak in Hv.
  apply elem_of_list_to_set, slice_to_subseteq in Hv.
  rewrite (Horder _) in Hv. apply elem_of_elements in Hv.
  revert v Hv. apply leet_loop_length; [done |].
  by intros v ->%elem_of_singleton.
Qed.

Lemma apply_leetspeak_keeps_length_witness :
  String.length "P@$$w0rd" = String.length "Password".
Proof.
  apply (apply_leetspeak_keeps_length elements "Password" 20).
  - intros X. reflexivity.
  - apply (bool_decide_unpack _). vm_compute. exact I.
Defined.

(** X14: a word with none of the mapped letters, in either case, has no
    leetspeak variant but itself, for every bound of at least 1. *)
Theorem apply_leetspeak_without_leet_letters
    (order : gset string -> list string) (word : string) (max_variants : Z) :
  Scorer.iteration_order order ->
  1 <= max_variants ->
  Forall (fun item => PyStr.char_in (fst item) (PyStr.lower word) = false)
         Generator.LEET_MAP ->
  Generator._apply_leetspeak order word max_variants = {[ word ]}.
Proof.
  intros Horder Hmv Hno. unfold Generator._apply_leetspeak.
  rewrite leet_loop_untouched; [| done].
  pose proof (Horder {[word]}) as Hperm.
  rewrite elements_singleton in Hperm.
  apply Permutation_singleton_r in Hperm. rewrite Hperm.
  unfold PyStr.slice_to. destruct (Z.leb_spec 0 (max_variants * 2)); [| lia].
  destruct (Z.to_nat (max_variants * 2)) as [|n] eqn:Hn; [lia |].
  simpl. rewrite take_nil. apply (right_id_L ∅ (∪)).
Qed.

Lemma apply_leetspeak_without_leet_letters_witness :
  Generator._apply_leetspeak elements "KRYPNUM" 5 = {[ "KRYPNUM" ]}.
Proof.
  apply apply_leetspeak_without_leet_letters.
  - intros X. reflexivity.
  - lia.
  - apply (bool_decide_unpack _). vm_compute. exact I.
Defined.


(** ** More on the filter stage *)

(** X15: the filter only removes candidates, and [stats['filtered']] is
    the number of candidates removed. *)
Theorem apply_filters_counts_removed (cfg : Config) (st : Filter.State) :
  Filter.wordlist (Filter.apply_filters cfg st) ⊆ Filter.wordlist st /\
  Filter.stats_filtered (Filter.apply_filters cfg st)
    = Z.of_nat (size (Filter.wordlist st ∖ Filter.wordlist (Filter.apply_filters cfg st))) /\
  0 <= Filter.stats_filtered (Filter.apply_filters cfg st).
Proof.
  assert (Hsub : Filter.wordlist (Filter.apply_filters cfg st) ⊆ Filter.wordlist st).
  { intros password Hp. by apply elem_of_apply_filters in Hp as [_ ?]. }
  pose proof (subseteq_size _ _ Hsub) as Hsize.
  split; [exact Hsub |].
  rewrite (size_difference _ _ Hsub).
  unfold Filter.apply_filters in *. simpl in *. lia.
Qed.

(** X16: filtering a merged candidate set gives the merge of the filtered
    sets, so the generators' outputs can be filtered one by one or
    together. *)
Theorem apply_filters_union (cfg : Config) (A B : gset string) (n n1 n2 : Z) :
  Filter.wordlist (Filter.apply_filters cfg (Filter.mkState (A ∪ B) n))
  = Filter.wordlist (Filter.apply_filters cfg (Filter.mkState A n1))
    ∪ Filter.wordlist (Filter.apply_filters cfg (Filter.mkState B n2)).
Proof.
  apply set_eq. intros password.
  rewrite elem_of_union, !elem_of_apply_filters. simpl.
  rewrite elem_of_union. tauto.
Qed.

(** ** More on the likelihood scorer *)

Section ScoreFacts.
Import PyStr Scorer.

Lemma bonus_at_first_existsb {A} (test : A -> bool) (bonus : Z) (l : list A) (score : Z) :
  bonus_at_first test bonus l score = if existsb test l then score + bonus else score.
Proof.
  induction l as [|x l IH]; simpl; [done |].
  destruct (test x); simpl; [done | exact IH].
Qed.

Lemma score_of_base_bonus (base_words : list string) (password : string) :
  score_of base_words password =
  score_of [] password +
  (if existsb (fun word => (4 <=? len word) && contains word (lower password))
              (take 20 base_words)
   then 25 else 0).
Proof.
  unfold score_of. cbv zeta.
  rewrite (bonus_at_first_existsb _ 25 (slice_to 20 base_words)).
  change (slice_to 20 base_words) with (take 20 base_words).
  change (slice_to 20 (@nil string)) with (@nil string).
  cbn [bonus_at_first].
  destruct (existsb _ (take 20 base_words)); lia.
Qed.

Lemma score_of_nil_bounds (password : string) : 0 <= score_of [] password <= 58.
Proof.
  unfold score_of. cbv zeta.
  change (slice_to 20 (@nil string)) with (@nil string). cbn [bonus_at_first].
  repeat match goal with
         | |- context [if ?b then _ else _] => destruct b
         end; lia.
Qed.

End ScoreFacts.

(** X17: a likelihood score is an integer between 0 and 83. *)
Theorem score_of_bounds (base_words : list string) (password : string) :
  0 <= Scorer.score_of base_words password <= 83.
Proof.
  rewrite score_of_base_bonus. pose proof (score_of_nil_bounds password).
  destruct (existsb _ _); lia.
Qed.

(** X18: the seed words count for exactly one bonus of 25, given when one
    of the first 20 seed words has at least 4 characters and occurs in the
    lower-cased candidate; seed words after the 20th are never looked at. *)
Theorem score_of_seed_bonus (base_words : list string) (password : string) :
  Scorer.score_of base_words password =
  Scorer.score_of [] password +
  (if existsb (fun word => (4 <=? PyStr.len word)
                           && PyStr.contains word (PyStr.lower password))
              (take 20 base_words)
   then 25 else 0).
Proof. apply score_of_base_bonus. Qed.


(** ** Keyboard walks and dates *)

Section AuxiliaryFacts.
Import PyStr Generator Auxiliary.

Lemma upper_char_idem (c : ascii) :
  upper_char (upper_char c) = upper_char c /\ upper_char (lower_char c) = upper_char c.
Proof. destruct c as [[] [] [] [] [] [] [] []]; split; reflexivity. Qed.


Lemma upper_lower (s : string) : upper (lower s) = upper s.
Proof.
  induction s as [|c s IH]; [reflexivity |].
  change (String (upper_char (lower_char c)) (upper (lower s))
          = String (upper_char c) (upper s)).
  by rewrite IH, (proj2 (upper_char_idem c)).
Qed.

Lemma upper_capitalize (s : string) : upper (capitalize s) = upper s.
Proof.
  destruct s as [|c s]; [reflexivity |].
  change (String (upper_char (upper_char c)) (upper (lower s))
          = String (upper_char c) (upper s)).
  by rewrite upper_lower, (proj1 (upper_char_idem c)).
Qed.



Lemma elem_of_range (a b k : Z) : k ∈ range a b <-> a <= k < b.
Proof. unfold range. rewrite elem_of_seqZ. lia. Qed.

Lemma add_year_range_extensive a b dates : dates ⊆ add_year_range a b dates.
Proof.
  unfold add_year_range. apply foldl_extensive. intros m year.
  etrans; apply add_extensive.
Qed.

Lemma add_year_range_year (a b y : Z) (dates : gset string) :
  a <= y < b ->
  str_of_int y ∈ add_year_range a b dates /\
  last_chars 2 (str_of_int y) ∈ add_year_range a b dates.
Proof.
  intros Hy. unfold add_year_range.
  split; apply (foldl_adds _ _ y); try (by apply elem_of_range);
    try (intros m year; etrans; apply add_extensive);
    intros m; rewrite !elem_of_add; tauto.
Qed.

End AuxiliaryFacts.



(** X20: every year of the requested range [start_year, end_year), and
    every year from 1970 to 2009 whatever the range, is in the dates both
    in full and cut to its last two characters. *)
Theorem generate_dates_years (current_year start_year end_year y : Z) :
  (end_year <> 0 /\ start_year <= y < end_year) \/ 1970 <= y < 2010 ->
  PyStr.str_of_int y
    ∈ Auxiliary.generate_dates current_year start_year (Some end_year) /\
  PyStr.last_chars 2 (PyStr.str_of_int y)
    ∈ Auxiliary.generate_dates current_year start_year (Some end_year).
Proof.
  unfold Auxiliary.generate_dates. cbv zeta. intros [[Hne Hy] | Hy].
  - destruct (Z.eqb_spec end_year 0); [done |].
    pose proof (add_year_range_year start_year end_year y ∅ Hy) as [H1 H2].
    split; apply add_year_range_extensive; do 2 (apply elem_of_union; left); done.
  - by apply add_year_range_year.
Qed.

Lemma generate_dates_years_witness :
  "2016" ∈ Auxiliary.generate_dates 2026 2015 (Some 2018) /\
  "16" ∈ Auxiliary.generate_dates 2026 2015 (Some 2018).
Proof. apply (generate_dates_years 2026 2015 2018 2016). left. lia. Defined.

(** X21: an end year that is absent, [None] or zero stands for two years
    after the current year. *)
Theorem generate_dates_default_end (current_year start_year : Z) :
  Auxiliary.generate_dates current_year start_year None
    = Auxiliary.generate_dates current_year start_year (Some (current_year + 2)) /\
  Auxiliary.generate_dates current_year start_year (Some 0)
    = Auxiliary.generate_dates current_year start_year None.
Proof.
  unfold Auxiliary.generate_dates. cbv zeta. split; [| reflexivity].
  destruct (Z.eqb_spec (current_year + 2) 0) as [-> | _]; reflexivity.
Qed.


(** ** Name combinations *)

Section NamesFacts.
Import PyStr Py Generator Pipeline.

Lemma lower_eq_nil (s : string) : lower s = "" <-> s = "".
Proof. destruct s; split; (done || discriminate). Qed.

Lemma isupper_lower_char (c : ascii) : isupper (lower_char c) = false.
Proof. destruct c as [[] [] [] [] [] [] [] []]; reflexivity. Qed.

Lemma any_char_app (p : ascii -> bool) (s t : string) :
  any_char p (s ++ t) = any_char p s || any_char p t.
Proof.
  induction s as [|c s IH]; [reflexivity |].
  change (p c || any_char p (s ++ t) = p c || any_char p s || any_char p t).
  rewrite IH. by rewrite orb_assoc.
Qed.

Lemma no_upper_lower (s : string) : any_char isupper (lower s) = false.
Proof.
  induction s as [|c s IH]; [reflexivity |].
  change (isupper (lower_char c) || any_char isupper (lower s) = false).
  by rewrite IH, isupper_lower_char.
Qed.

(** [first[0]] raises on the empty string only, and returns a character of
    the string otherwise. *)
Lemma index0_spec (s : string) :
  (s = "" /\ index0 s = Raised IndexError) \/
  (s <> "" /\ exists c, index0 s = Returned (of_char c) /\
                        (any_char isupper s = false -> isupper c = false)).
Proof.
  destruct s as [|c s]; [by left | right].
  split; [done |]. exists c. split; [done |].
  simpl. by intros [? _]%orb_false_iff.
Qed.

Lemma names_pair_raises company passwords first last :
  first = "" \/ last = "" ->
  names_pair company passwords first last = Raised IndexError.
Proof.
  unfold names_pair. cbv zeta. intros [-> | ->]; [done |].
  by destruct first.
Qed.

Lemma names_pair_returns company passwords c1 s1 c2 s2 :
  exists passwords',
    names_pair company passwords (String c1 s1) (String c2 s2) = Returned passwords' /\
    forall x, x ∈ passwords' <->
              x ∈ passwords \/
              x ∈ pair_passwords company (String c1 s1) (String c2 s2) c1 c2.
Proof.
  eexists. split; [reflexivity |].
  intros x. unfold pair_passwords. cbn [foldl flat_map app].
  destruct (negb (String.eqb company ""));
    rewrite !elem_of_add; cbn [app];
    rewrite !elem_of_cons, elem_of_nil; tauto.
Qed.

Lemma names_pair_cases company passwords first last :
  ((first = "" \/ last = "") /\
   names_pair company passwords first last = Raised IndexError) \/
  (first <> "" /\ last <> "" /\
   exists passwords', names_pair company passwords first last = Returned passwords' /\
                      passwords ⊆ passwords').
Proof.
  destruct first as [|c1 s1]; [left; split; [by left | done] |].
  destruct last as [|c2 s2]; [left; split; [by right | done] |].
  right. split; [done | split; [done |]].
  destruct (names_pair_returns company passwords c1 s1 c2 s2) as (p' & Hp' & Hin).
  exists p'. split; [done |]. intros x Hx. apply Hin. by left.
Qed.

(** The loop over the last names, for one first name. *)
Lemma last_names_loop company first lasts :
  forall passwords,
    (lasts <> [] /\ (first = "" \/ "" ∈ lasts) /\
     for_each (fun passwords last => names_pair company passwords first last)
              passwords lasts = Raised IndexError) \/
    ((lasts = [] \/ (first <> "" /\ ("" ∉ lasts))) /\
     exists passwords',
       for_each (fun passwords last => names_pair company passwords first last)
                passwords lasts = Returned passwords' /\
       passwords ⊆ passwords').
Proof.
  induction lasts as [|last lasts IH]; intros passwords.
  { right. split; [by left |]. by exists passwords. }
  simpl.
  destruct (names_pair_cases company passwords first last)
    as [[Hempty ->] | (Hf & Hl & p' & -> & Hsub)].
  - left. split; [done |]. split; [| done].
    destruct Hempty as [? | ->]; [by left | right; by left].
  - simpl. destruct (IH p') as [(Hne & Hcase & ->) | (Hcase & p'' & -> & Hsub')].
    + left. split; [done |]. split; [| done].
      destruct Hcase as [? | ?]; [by left | right; by right].
    + right. split.
      * right. split; [done |]. intros [? | Hin]%elem_of_cons; [done |].
        destruct Hcase as [-> | [_ ?]]; [by apply elem_of_nil in Hin | done].
      * exists p''. split; [done | by etrans].
Qed.

Lemma names_loops company firsts lasts :
  forall passwords,
    (firsts <> [] /\ lasts <> [] /\ ("" ∈ firsts \/ "" ∈ lasts) /\
     for_each (fun passwords first =>
                 for_each (fun passwords last => names_pair company passwords first last)
                          passwords lasts)
              passwords firsts = Raised IndexError) \/
    ((firsts = [] \/ lasts = [] \/ (("" ∉ firsts) /\ ("" ∉ lasts))) /\
     exists passwords',
       for_each (fun passwords first =>
                   for_each (fun passwords last => names_pair company passwords first last)
                            passwords lasts)
                passwords firsts = Returned passwords' /\
       passwords ⊆ passwords').
Proof.
  induction firsts as [|first firsts IH]; intros passwords.
  { right. split; [by left |]. by exists passwords. }
  simpl.
  destruct (last_names_loop company first lasts passwords)
    as [(Hne & Hcase & ->) | (Hcase & p' & -> & Hsub)].
  - left. split; [done |]. split; [done |]. split; [| done].
    destruct Hcase as [-> | ?]; [left; by left | by right].
  - simpl. destruct (IH p') as [(Hne & Hne' & Hcase' & ->) | (Hcase' & p'' & -> & Hsub')].
    + left. split; [done |]. split; [done |]. split; [| done].
      destruct Hcase' as [? | ?]; [left; by right | by right].
    + right. split.
      * destruct Hcase as [-> | [Hf Hl]]; [right; by left |].
        destruct Hcase' as [-> | [-> | [Hfs _]]].
        -- right. right. split; [| done].
           intros [? | Hin]%elem_of_cons; [done | by apply elem_of_nil in Hin].
        -- right. by left.
        -- right. right. split; [| done].
           intros [? | Hin]%elem_of_cons; done.
      * exists p''. split; [done | by etrans].
Qed.

Lemma elem_of_map_lower_nil (l : list string) : "" ∈ map lower l <-> "" ∈ l.
Proof.
  split.
  - intros H. apply list_elem_of_In, in_map_iff in H as (x & Hx & Hin).
    apply lower_eq_nil in Hx as ->. by apply list_elem_of_In.
  - intros Hin. apply list_elem_of_In, in_map_iff. exists "".
    split; [done | by apply list_elem_of_In].
Qed.

(** A loop whose body may raise keeps, when it returns, what every
    returning run of its body keeps. *)
Lemma for_each_preserves {A} (Q : gset string -> Prop)
    (body : gset string -> A -> outcome (gset string)) (l : list A) :
  (forall m a m', a ∈ l -> Q m -> body m a = Returned m' -> Q m') ->
  forall m m', Q m -> for_each body m l = Returned m' -> Q m'.
Proof.
  induction l as [|a l IH]; intros Hbody m m' Hm Hrun; simpl in Hrun.
  { by injection Hrun as <-. }
  destruct (body m a) as [m1 | e] eqn:Hm1; [| done]. simpl in Hrun.
  apply (IH (fun m0 a0 m0' Ha0 => Hbody m0 a0 m0' (list_elem_of_further _ _ _ Ha0))
            m1 m'); [| done].
  apply (Hbody m a m1); [by left | done | done].
Qed.

Lemma names_pair_no_upper company passwords first last passwords' :
  any_char isupper company = false ->
  any_char isupper first = false ->
  any_char isupper last = false ->
  (forall x, x ∈ passwords -> any_char isupper x = false) ->
  names_pair company passwords first last = Returned passwords' ->
  forall x, x ∈ passwords' -> any_char isupper x = false.
Proof.
  intros Hc Hf Hl Hp Hrun x Hx.
  destruct first as [|c1 s1]; [done |]. destruct last as [|c2 s2]; [done |].
  destruct (names_pair_returns company passwords c1 s1 c2 s2) as (p' & Hp' & Hin).
  rewrite Hp' in Hrun. injection Hrun as <-.
  apply Hin in Hx as [Hx | Hx]; [by apply Hp |].
  assert (H1 : any_char isupper (of_char c1) = false).
  { simpl in Hf. apply orb_false_iff in Hf as [Hc1 _]. simpl. by rewrite Hc1. }
  assert (H2 : any_char isupper (of_char c2) = false).
  { simpl in Hl. apply orb_false_iff in Hl as [Hc2 _]. simpl. by rewrite Hc2. }
  revert x Hx. apply Forall_forall. unfold pair_passwords.
  destruct (negb (String.eqb company "")); cbn [app flat_map];
    repeat (apply Forall_cons; split; [rewrite ?any_char_app, ?Hf, ?Hl, ?Hc, ?H1, ?H2; done |]);
    by apply Forall_nil.
Qed.

End NamesFacts.

(** X22: with the two name lists and the company given, name generation
    raises [IndexError] exactly when both lists are non-empty and one of
    them holds an empty name; in every other case it returns a set. *)
Theorem generate_from_names_raises (firsts lasts : list string) (company : string) :
  (firsts <> [] /\ lasts <> [] /\ ("" ∈ firsts \/ "" ∈ lasts) /\
   Pipeline.generate_from_names (Py.Value firsts) (Py.Value lasts) (Py.Value company)
     = Py.Raised Py.IndexError) \/
  ((firsts = [] \/ lasts = [] \/ (("" ∉ firsts) /\ ("" ∉ lasts))) /\
   exists passwords,
     Pipeline.generate_from_names (Py.Value firsts) (Py.Value lasts) (Py.Value company)
       = Py.Returned passwords).
Proof.
  unfold Pipeline.generate_from_names. simpl.
  destruct (names_loops (PyStr.lower company) (map PyStr.lower firsts)
                        (map PyStr.lower lasts) ∅)
    as [(Hf & Hl & Hcase & ->) | (Hcase & p' & -> & _)].
  - left. rewrite !elem_of_map_lower_nil in Hcase.
    split; [by destruct firsts | split; [by destruct lasts | done]].
  - right. rewrite !elem_of_map_lower_nil in Hcase. split; [| by exists p'].
    destruct Hcase as [? | [? | ?]];
      [left; by destruct firsts | right; left; by destruct lasts | by do 2 right].
Qed.

(** X23: for ASCII names and an ASCII company, no name password has an
    upper-case letter: names and company are lower-cased before they are
    combined.  (On ASCII text the case maps of the model are those of
    Python.) *)
Theorem generate_from_names_no_upper
    (firsts lasts : list string) (company : string)
    (passwords : gset string) (p : string) :
  Forall (fun name => PyStr.isascii name = true) firsts ->
  Forall (fun name => PyStr.isascii name = true) lasts ->
  PyStr.isascii company = true ->
  Pipeline.generate_from_names (Py.Value firsts) (Py.Value lasts) (Py.Value company)
    = Py.Returned passwords ->
  p ∈ passwords ->
  PyStr.any_char PyStr.isupper p = false.
Proof.
  intros _ _ _. unfold Pipeline.generate_from_names, Pipeline.lower_names. simpl.
  intros Hrun. revert p.
  revert Hrun. apply (for_each_preserves
    (fun m => forall p, p ∈ m -> PyStr.any_char PyStr.isupper p = false));
    [| by intros p ?%not_elem_of_empty].
  intros m first m' Hfirst Hm.
  apply (for_each_preserves
    (fun m => forall p, p ∈ m -> PyStr.any_char PyStr.isupper p = false)); [| done].
  intros m1 last m1' Hlast Hm1 Hrun.
  apply list_elem_of_In, in_map_iff in Hfirst as (f & <- & _).
  apply list_elem_of_In, in_map_iff in Hlast as (l & <- & _).
  eapply names_pair_no_upper; [| | | exact Hm1 | exact Hrun]; apply no_upper_lower.
Qed.

Lemma generate_from_names_no_upper_witness :
  PyStr.any_char PyStr.isupper "john@acme" = false.
Proof.
  assert (H : exists passwords,
             Pipeline.generate_from_names (Py.Value ["John"]) (Py.Value ["Doe"])
                                          (Py.Value "Acme") = Py.Returned passwords /\
             "john@acme" ∈ passwords).
  { eexists. split; [reflexivity |].
    apply (bool_decide_unpack _). vm_compute. exact I. }
  destruct H as (passwords & Hrun & Hin).
  apply (generate_from_names_no_upper ["John"] ["Doe"] "Acme" passwords "john@acme");
    [by repeat constructor | by repeat constructor | reflexivity | exact Hrun | exact Hin].
Defined.


Section NamesMembership.
Import PyStr Py Generator Pipeline.

Lemma names_pair_extensive company m first last m' :
  names_pair company m first last = Returned m' -> m ⊆ m'.
Proof.
  intros Hrun.
  destruct (names_pair_cases company m first last)
    as [[_ Hraise] | (_ & _ & m'' & Hret & Hsub)]; [congruence |].
  rewrite Hret in Hrun. by injection Hrun as <-.
Qed.

Lemma for_each_extensive {A} (body : gset string -> A -> outcome (gset string))
    (l : list A) :
  (forall m a m', body m a = Returned m' -> m ⊆ m') ->
  forall m m', for_each body m l = Returned m' -> m ⊆ m'.
Proof.
  intros Hbody. induction l as [|a l IH]; intros m m' Hrun; simpl in Hrun.
  { by injection Hrun as <-. }
  destruct (body m a) as [m1 | e] eqn:Hm1; [| done]. simpl in Hrun.
  etrans; [by eapply Hbody | by apply IH].
Qed.

Lemma for_each_adds {A} (body : gset string -> A -> outcome (gset string))
    (l : list A) (a : A) (x : string) :
  (forall m b m', body m b = Returned m' -> m ⊆ m') ->
  (forall m m', body m a = Returned m' -> x ∈ m') ->
  a ∈ l ->
  forall m m', for_each body m l = Returned m' -> x ∈ m'.
Proof.
  intros Hext Hadd. induction l as [|b l IH]; intros Ha m m' Hrun;
    [by apply elem_of_nil in Ha |].
  simpl in Hrun. destruct (body m b) as [m1 | e] eqn:Hm1; [| done]. simpl in Hrun.
  apply elem_of_cons in Ha as [<- | Ha]; [| by apply (IH Ha m1)].
  apply (for_each_extensive body l Hext m1 m' Hrun). by eapply Hadd.
Qed.

Lemma names_pair_adds company m first last m' x :
  names_pair company m first last = Returned m' ->
  x ∈ [ first ++ last; last ++ first; first ++ "." ++ last; first ++ "_" ++ last;
        first ++ last ++ "123"; first ++ last ++ "2024"; first ++ last ++ "!";
        first ++ last ++ "1" ] ->
  x ∈ m'.
Proof.
  intros Hrun Hx.
  destruct first as [|c1 s1]; [done |]. destruct last as [|c2 s2]; [by destruct c1 |].
  destruct (names_pair_returns company m c1 s1 c2 s2) as (p' & Hp' & Hin).
  rewrite Hp' in Hrun. injection Hrun as <-.
  apply Hin. right. unfold pair_passwords.
  destruct (negb (String.eqb company "")); cbn [app flat_map];
    rewrite !elem_of_cons, elem_of_nil in Hx; rewrite !elem_of_cons; tauto.
Qed.

End NamesMembership.

(** X24: when name generation returns, every first name is combined with
    every last name, lower-cased: the two concatenations, the dot and
    underscore joins, and the first-last concatenation followed by each of
    the four suffixes are in the result. *)
Theorem generate_from_names_pairs
    (firsts lasts : list string) (company : string) (passwords : gset string)
    (first last x : string) :
  Pipeline.generate_from_names (Py.Value firsts) (Py.Value lasts) (Py.Value company)
    = Py.Returned passwords ->
  first ∈ firsts -> last ∈ lasts ->
  x ∈ [ PyStr.lower first ++ PyStr.lower last;
        PyStr.lower last ++ PyStr.lower first;
        PyStr.lower first ++ "." ++ PyStr.lower last;
        PyStr.lower first ++ "_" ++ PyStr.lower last;
        PyStr.lower first ++ PyStr.lower last ++ "123";
        PyStr.lower first ++ PyStr.lower last ++ "2024";
        PyStr.lower first ++ PyStr.lower last ++ "!";
        PyStr.lower first ++ PyStr.lower last ++ "1" ] ->
  x ∈ passwords.
Proof.
  unfold Pipeline.generate_from_names. simpl. intros Hrun Hf Hl Hx.
  revert Hrun. apply (for_each_adds _ _ (PyStr.lower first)).
  - intros m b m'. apply for_each_extensive. intros m1 a m1'.
    apply names_pair_extensive.
  - intros m m'. apply (for_each_adds _ _ (PyStr.lower last)).
    + intros m1 a m1'. apply names_pair_extensive.
    + intros m1 m1' Hpair. by eapply names_pair_adds.
    + apply list_elem_of_In, in_map. by apply list_elem_of_In.
  - apply list_elem_of_In, in_map. by apply list_elem_of_In.
Qed.

Lemma generate_from_names_pairs_witness :
  exists passwords,
    Pipeline.generate_from_names (Py.Value ["John"; "Jane"]) (Py.Value ["Doe"])
                                 (Py.Value "") = Py.Returned passwords /\
    "jane_doe" ∈ passwords.
Proof.
  eexists. split; [reflexivity |].
  apply (generate_from_names_pairs ["John"; "Jane"] ["Doe"] "" _ "Jane" "Doe");
    [reflexivity | | | ].
  - right. left.
  - left.
  - do 3 right. left.
Defined.

(** ** Base words *)

Section BaseWordFacts.
Import PyStr Py Generator Pipeline.

Lemma lower_fixed_list (l : list string) (w : string) :
  w ∈ (list_to_set (map lower l) : gset string) -> lower w = w.
Proof.
  intros Hw. apply elem_of_list_to_set, list_elem_of_In, in_map_iff in Hw as (x & <- & _).
  apply lower_lower.
Qed.

(** A word added from the file is a stripped line of 3 to 20 characters,
    lower-cased. *)
Lemma add_file_words_origin (lines : list string) (base_words : gset string) (w : string) :
  w ∈ add_file_words lines base_words ->
  w ∈ base_words \/
  exists line, line ∈ lines /\ w = lower (strip line) /\ 3 <= len (strip line) <= 20.
Proof.
  unfold add_file_words. revert w.
  apply (foldl_invariant_in
           (fun w => exists line, line ∈ lines /\ w = lower (strip line)
                                  /\ 3 <= len (strip line) <= 20)).
  intros results line s Hline.
  destruct (negb _) eqn:Hne; simpl; [| by left].
  destruct (Z.leb_spec 3 (len (strip line))); simpl; [| by left].
  destruct (Z.leb_spec (len (strip line)) 20); simpl; [| by left].
  rewrite elem_of_add. intros [-> | Hs]; [right | by left].
  exists line. split; [done | split; [done | lia]].
Qed.

Lemma add_file_words_lower (lines : list string) (base_words : gset string) (w : string) :
  w ∈ add_file_words lines base_words ->
  w ∈ base_words \/ lower w = w.
Proof.
  intros [Hw | (line & _ & -> & _)]%add_file_words_origin; [by left | right].
  apply lower_lower.
Qed.

End BaseWordFacts.

(** X25: collecting the base words raises in two cases only.  When the
    scraper raises, its exception is passed on.  When it does not, names
    are configured and one of the two name entries is [None], as when just
    one of the two name options is given, the exception is [TypeError]. *)
Theorem collect_base_words_raises
    (rc : Pipeline.RunConfig) (base_words : gset string) (e : Py.exception) :
  Pipeline.collect_base_words rc base_words = Py.Raised e <->
  Pipeline.urls rc = Some (Py.Raised e) \/
  ((forall e', Pipeline.urls rc <> Some (Py.Raised e')) /\
   e = Py.TypeError /\
   Py.truthy_list (Pipeline.first_names rc) || Py.truthy_list (Pipeline.last_names rc) = true /\
   (Pipeline.first_names rc = Py.PyNone \/ Pipeline.last_names rc = Py.PyNone)).
Proof.
  unfold Pipeline.collect_base_words. cbv zeta.
  destruct (Pipeline.urls rc) as [[scraped | e'] |]; simpl.
  2: { split; [intros [= ->]; by left | intros [[= ->] | [H _]]; [done |]].
       by destruct (H e'). }
  all: destruct (Pipeline.first_names rc) as [| |[|f fs]],
                (Pipeline.last_names rc) as [| |[|l ls]]; simpl;
    (split; [intros H; try discriminate H; injection H as <-; right;
             (split; [by intros ? | split; [done | split; [done | tauto]]])
            | intros [H | (_ & -> & Ht & [H | H])]; done]).
Qed.

(** X26: without scraped words, every collected base word is lower-case. *)
Theorem collect_base_words_lower
    (rc : Pipeline.RunConfig) (base_words : gset string) (w : string) :
  Pipeline.urls rc = None ->
  Pipeline.collect_base_words rc ∅ = Py.Returned base_words ->
  w ∈ base_words ->
  PyStr.lower w = w.
Proof.
  unfold Pipeline.collect_base_words. cbv zeta. intros -> Hrun Hw.
  set (B1 := match Pipeline.words rc with
             | Py.Value (w0 :: ws) => ∅ ∪ list_to_set (map PyStr.lower (w0 :: ws))
             | _ => (∅ : gset string)
             end) in *.
  assert (H1 : forall w, w ∈ B1 -> PyStr.lower w = w).
  { intros w' Hw'. unfold B1 in Hw'.
    destruct (Pipeline.words rc) as [| |[|w0 ws]]; try by apply not_elem_of_empty in Hw'.
    apply elem_of_union in Hw' as [Hw' | Hw']; [by apply not_elem_of_empty in Hw' |].
    by eapply lower_fixed_list. }
  set (B2 := match Pipeline.input_file rc with
             | Some lines => Pipeline.add_file_words lines B1
             | None => B1
             end) in *.
  assert (H2 : forall w, w ∈ B2 -> PyStr.lower w = w).
  { intros w' Hw'. unfold B2 in Hw'. destruct (Pipeline.input_file rc); [| by apply H1].
    apply add_file_words_lower in Hw' as [Hw' | Hw']; [by apply H1 | done]. }
  clearbody B2. clear B1 H1. cbn [mbind Py.outcome_bind] in Hrun.
  destruct (Py.truthy_list (Pipeline.first_names rc) || Py.truthy_list (Pipeline.last_names rc)).
  - destruct (Py.get_default (Pipeline.first_names rc) []) as [firsts|]; [| done].
    destruct (Py.get_default (Pipeline.last_names rc) []) as [lasts|]; [| done].
    simpl in Hrun. injection Hrun as <-.
    assert (H3 : forall w, w ∈ B2 ∪ list_to_set (map PyStr.lower (firsts ++ lasts)) ->
                           PyStr.lower w = w).
    { intros w' [Hw' | Hw']%elem_of_union; [by apply H2 | by eapply lower_fixed_list]. }
    destruct (Pipeline.company rc) as [| |[|c s]]; try by apply H3.
    apply elem_of_add in Hw as [-> | Hw]; [apply lower_lower | by apply H3].
  - simpl in Hrun. injection Hrun as <-.
    destruct (Pipeline.company rc) as [| |[|c s]]; try by apply H2.
    apply elem_of_add in Hw as [-> | Hw]; [apply lower_lower | by apply H2].
Qed.


Lemma collect_base_words_lower_witness :
  exists base_words,
    Pipeline.collect_base_words
      (Pipeline.mkRunConfig (Py.Value ["Admin"]) (Some ["  Summer  "]) None
         (Py.Value ["John"]) (Py.Value ["Doe"]) (Py.Value "ACME")
         [] false false true false 2015 None 1 (Some 128)
         false false false false false) ∅ = Py.Returned base_words /\
    PyStr.lower "acme" = "acme".
Proof.
  eexists. split; [reflexivity |].
  eapply (collect_base_words_lower
    (Pipeline.mkRunConfig (Py.Value ["Admin"]) (Some ["  Summer  "]) None
       (Py.Value ["John"]) (Py.Value ["Doe"]) (Py.Value "ACME")
       [] false false true false 2015 None 1 (Some 128)
       false false false false false)); [reflexivity | reflexivity |].
  apply (bool_decide_unpack _). vm_compute. exact I.
Defined.

(** ** The pipeline *)

Section PipelineFacts.
Import PyStr Py Generator Pipeline.

Lemma apply_filters_stats_nonneg (cfg : Config) (st : Filter.State) :
  0 <= Filter.stats_filtered (Filter.apply_filters cfg st).
Proof.
  assert (Hsub : Filter.wordlist (Filter.apply_filters cfg st) ⊆ Filter.wordlist st).
  { intros password Hp. by apply elem_of_apply_filters in Hp as [_ ?]. }
  apply subseteq_size in Hsub. unfold Filter.apply_filters in *. simpl in *. lia.
Qed.

(** The returned list enumerates the filtered word list. *)
Lemma result_perm (o : Orders) (smart : bool) (wordlist : gset string)
    (base : list string) :
  Scorer.iteration_order (order_wordlist o) ->
  (if smart then Scorer.sort_by_likelihood (order_wordlist o) wordlist base
   else order_wordlist o wordlist) ≡ₚ elements wordlist.
Proof.
  intros Horder. destruct smart; [rewrite sort_by_likelihood_perm |]; apply Horder.
Qed.

Lemma build_wordlist_names_raise (o : Orders) (current_year : Z) (rc : RunConfig)
    (base_words : gset string) (e : exception) :
  truthy_list (first_names rc) = true ->
  truthy_list (last_names rc) = true ->
  generate_from_names (first_names rc) (last_names rc) (company rc) = Raised e ->
  build_wordlist o current_year rc base_words = Raised e.
Proof.
  intros Hf Hl Hnames. unfold build_wordlist. cbv zeta.
  repeat match goal with
         | |- context [let '(_, _) := ?X in _] => destruct X
         end.
  by rewrite Hf, Hl, Hnames.
Qed.

End PipelineFacts.

(** X27: whatever the sources and options, every password that [generate]
    returns passes the configured filter, no password is returned twice,
    and the counters agree with the list: [total] is its length and
    [filtered] is not negative. *)
Theorem generate_output_filtered
    (o : Pipeline.Orders) (current_year : Z) (rc : Pipeline.RunConfig)
    (result : list string) (st : Pipeline.Stats) :
  Scorer.iteration_order (Pipeline.order_wordlist o) ->
  Pipeline.generate o current_year rc = Py.Returned (result, st) ->
  NoDup result /\
  (forall p, p ∈ result -> Filter.keeps (Pipeline.filter_config rc) p = true) /\
  Pipeline.stats_total st = Z.of_nat (length result) /\
  0 <= Pipeline.stats_filtered st.
Proof.
  intros Horder. unfold Pipeline.generate.
  destruct (Pipeline.collect_base_words rc ∅) as [base_words | e]; [| done].
  simpl.
  destruct (bool_decide (base_words = ∅) && negb (Pipeline.keyboard_walks rc)
            && bool_decide (Pipeline.patterns rc = [])).
  { intros [= <- <-]. simpl.
    split; [constructor | split; [by intros p ?%elem_of_nil | done]]. }
  destruct (Pipeline.build_wordlist o current_year rc base_words)
    as [[[wordlist mutations] combos] | e]; [| done].
  simpl. intros [= <- <-]. simpl.
  pose proof (result_perm o (Pipeline.smart_order rc)
                (Filter.wordlist (Filter.apply_filters (Pipeline.filter_config rc)
                                    (Filter.mkState wordlist 0)))
                (Pipeline.order_base o base_words) Horder) as Hperm.
  split; [| split; [| split]].
  - rewrite Hperm. apply NoDup_elements.
  - intros p Hp. rewrite Hperm in Hp. apply elem_of_elements in Hp.
    by apply elem_of_apply_filters in Hp as [? _].
  - done.
  - exact (apply_filters_stats_nonneg (Pipeline.filter_config rc)
             (Filter.mkState wordlist 0)).
Qed.

Lemma generate_output_filtered_witness :
  exists result st,
    Pipeline.generate
      (Pipeline.mkOrders elements elements elements elements) 2026
      (Pipeline.mkRunConfig (Py.Value ["Admin"]) None None Py.PyNone Py.PyNone Py.PyNone
         [] false false true true 2015 None 8 (Some 128)
         false false true false false)
    = Py.Returned (result, st) /\
    NoDup result /\
    Pipeline.stats_total st = Z.of_nat (length result).
Proof.
  eexists _, _. split; [vm_compute; reflexivity |].
  match goal with
  | |- NoDup ?r /\ Pipeline.stats_total ?s = _ =>
      pose proof (generate_output_filtered
        (Pipeline.mkOrders elements elements elements elements) 2026
        (Pipeline.mkRunConfig (Py.Value ["Admin"]) None None Py.PyNone Py.PyNone Py.PyNone
           [] false false true true 2015 None 8 (Some 128)
           false false true false false) r s) as H
  end.
  destruct H as (Hnd & _ & Htotal & _);
    [intros X; reflexivity | vm_compute; reflexivity | by split].
Defined.

(** X28: a run in which no base word is collected and neither keyboard
    walks nor patterns are requested returns the empty list, also when
    dates are requested. *)
Theorem generate_without_sources
    (o : Pipeline.Orders) (current_year : Z) (rc : Pipeline.RunConfig) :
  Pipeline.collect_base_words rc ∅ = Py.Returned ∅ ->
  Pipeline.keyboard_walks rc = false ->
  Pipeline.patterns rc = [] ->
  Pipeline.generate o current_year rc
    = Py.Returned ([], Pipeline.mkStats 0 0 0 0 0).
Proof.
  intros Hbase Hwalks Hpatterns. unfold Pipeline.generate.
  rewrite Hbase, Hwalks, Hpatterns. reflexivity.
Qed.

Lemma generate_without_sources_witness :
  Pipeline.generate
    (Pipeline.mkOrders elements elements elements elements) 2026
    (Pipeline.mkRunConfig Py.PyNone (Some ["ab"; "  x  "]) None Py.PyNone Py.PyNone Py.PyNone
       [] false true true true 2015 None 1 (Some 128)
       false false false false false)
  = Py.Returned ([], Pipeline.mkStats 0 0 0 0 0).
Proof. apply generate_without_sources; reflexivity. Defined.

(** X29: when first and last names are given, the company entry is
    [None], as [argparse] leaves it when no company is given, and the
    scraper, if it runs, does not raise, [generate] raises
    [AttributeError]: the name generator lower-cases the company without a
    test. *)
Theorem generate_names_without_company
    (o : Pipeline.Orders) (current_year : Z) (rc : Pipeline.RunConfig)
    (first last : string) (firsts lasts : list string) :
  (forall e, Pipeline.urls rc <> Some (Py.Raised e)) ->
  Pipeline.first_names rc = Py.Value (first :: firsts) ->
  Pipeline.last_names rc = Py.Value (last :: lasts) ->
  Pipeline.company rc = Py.PyNone ->
  Pipeline.generate o current_year rc = Py.Raised Py.AttributeError.
Proof.
  intros Hurls Hf Hl Hc.
  unfold Pipeline.generate, Pipeline.collect_base_words. cbv zeta.
  rewrite Hf, Hl, Hc.
  destruct (Pipeline.urls rc) as [[scraped | e] |]; [| by destruct (Hurls e) |];
    simpl;
    match goal with
    | |- context [bool_decide (?B = ∅)] =>
        assert (Hne : B <> ∅);
        [ intros Hempty;
          assert (Hin : PyStr.lower first ∈ B) by
            (apply elem_of_union; right; apply elem_of_union; left;
             by apply elem_of_singleton);
          rewrite Hempty in Hin; by apply not_elem_of_empty in Hin
        | rewrite (bool_decide_eq_false_2 _ Hne) ]
    end;
    simpl; (rewrite (build_wordlist_names_raise _ _ _ _ Py.AttributeError);
            [done | by rewrite Hf | by rewrite Hl |]);
    by rewrite Hf, Hl, Hc.
Qed.

Lemma generate_names_without_company_witness :
  Pipeline.generate
    (Pipeline.mkOrders elements elements elements elements) 2026
    (Pipeline.mkRunConfig Py.PyNone None None (Py.Value ["john"]) (Py.Value ["doe"])
       Py.PyNone [] false false true false 2015 None 1 (Some 128)
       false false false false false)
  = Py.Raised Py.AttributeError.
Proof. by apply (generate_names_without_company _ _ _ "john" "doe" [] []). Defined.

(** X30: when the base words come from an ASCII input file alone, each
    of them is a line of the file, stripped and lower-cased, and has 3 to
    20 characters; command-line words, names and the company are not
    bounded in this way. *)
Theorem collect_base_words_file_lengths
    (rc : Pipeline.RunConfig) (lines : list string)
    (base_words : gset string) (w : string) :
  Py.truthy_list (Pipeline.words rc) = false ->
  Pipeline.input_file rc = Some lines ->
  Forall (fun line => PyStr.isascii line = true) lines ->
  Pipeline.urls rc = None ->
  Py.truthy_list (Pipeline.first_names rc) = false ->
  Py.truthy_list (Pipeline.last_names rc) = false ->
  Py.truthy_str (Pipeline.company rc) = false ->
  Pipeline.collect_base_words rc ∅ = Py.Returned base_words ->
  w ∈ base_words ->
  (exists line, line ∈ lines /\ w = PyStr.lower (Py.strip line)) /\
  3 <= PyStr.len w <= 20.
Proof.
  unfold Pipeline.collect_base_words. cbv zeta.
  intros Hwords -> _ -> Hf Hl Hc. rewrite Hf, Hl.
  destruct (Pipeline.words rc) as [| |[|w0 ws]]; try done;
    destruct (Pipeline.company rc) as [| |[|c s]]; try done;
    simpl; intros [= <-] Hin;
    apply add_file_words_origin in Hin as [Hin | (line & Hline & -> & Hlen)];
    try (by apply not_elem_of_empty in Hin);
    (split; [by exists line |]);
    unfold PyStr.len, PyStr.lower in *; rewrite length_map_chars; lia.
Qed.

Lemma collect_base_words_file_lengths_witness :
  exists base_words,
    Pipeline.collect_base_words
      (Pipeline.mkRunConfig Py.PyNone (Some ["  Summer  "; "ab"; "winter"]) None
         Py.PyNone Py.PyNone Py.PyNone
         [] false false true false 2015 None 1 (Some 128)
         false false false false false) ∅ = Py.Returned base_words /\
    3 <= PyStr.len "summer" <= 20.
Proof.
  eexists. split; [reflexivity |].
  eapply (collect_base_words_file_lengths
    (Pipeline.mkRunConfig Py.PyNone (Some ["  Summer  "; "ab"; "winter"]) None
       Py.PyNone Py.PyNone Py.PyNone
       [] false false true false 2015 None 1 (Some 128)
       false false false false false) ["  Summer  "; "ab"; "winter"]);
    [reflexivity | reflexivity | by repeat constructor | reflexivity | reflexivity
    | reflexivity | reflexivity | reflexivity |].
  apply (bool_decide_unpack _). vm_compute. exact I.
Defined.


(** ** The length of the combinations *)

(** The length of a one-character literal. *)
Ltac len_literals :=
  repeat match goal with
         | |- context [PyStr.len (String ?c EmptyString)] =>
             change (PyStr.len (String c EmptyString)) with 1
         end.

Section CombinationLengths.
Import PyStr Generator CaseMethod.
Variable capitalize : string -> string.

Lemma generate_combinations_with_ascii (words : list string) (max_length : Z) :
  generate_combinations_with PyStr.capitalize words max_length
  = generate_combinations words max_length.
Proof. reflexivity. Qed.

Lemma generate_combinations_with_pair (w1 w2 : string) (max_length : Z) :
  generate_combinations_with capitalize [w1; w2] max_length =
  if len w1 + len w2 <=? max_length then
    add (w1 ++ "-" ++ w2) (add (w1 ++ "." ++ w2) (add (w1 ++ "_" ++ w2)
      (add (capitalize w1 ++ capitalize w2) (add (w2 ++ w1) (add (w1 ++ w2) ∅)))))
  else ∅.
Proof. reflexivity. Qed.

Lemma generate_combinations_with_len (words : list string) (max_length : Z) (s : string) :
  (forall w, w ∈ take 30 words -> len (capitalize w) <= len w) ->
  s ∈ generate_combinations_with capitalize words max_length ->
  len s <= max_length + 1.
Proof.
  intros Hcap. unfold generate_combinations_with. cbv zeta.
  change (slice_to 30 words) with (take 30 words).
  set (pairs := foldl _ ∅ _).
  assert (Hpairs : forall s, s ∈ pairs -> s ∈ (∅ : gset string) \/ len s <= max_length + 1).
  { apply foldl_invariant_in. intros results [w1 w2] s' Hin.
    apply combinations2_elem_of in Hin as [H1 H2].
    pose proof (Hcap w1 H1). pose proof (Hcap w2 H2).
    destruct (Z.leb_spec (len w1 + len w2) max_length) as [Hle | _]; [| by left].
    rewrite !elem_of_add. intros [-> | [-> | [-> | [-> | [-> | [-> | Hs]]]]]];
      [right .. | by left];
      rewrite ?len_app; len_literals; lia. }
  destruct (3 <=? Z.of_nat (length (take 30 words))).
  - intros Hs.
    apply (foldl_invariant_in (fun s => len s <= max_length + 1)) in Hs as [Hs | Hs].
    + apply Hpairs in Hs as [Hs | Hs]; [by apply not_elem_of_empty in Hs | exact Hs].
    + exact Hs.
    + intros results [[c1 c2] c3] s' Hin.
      apply combinations3_elem_of in Hin as (H1 & H2 & H3).
      apply slice_to_subseteq in H1, H2, H3.
      pose proof (Hcap c1 H1). pose proof (Hcap c2 H2). pose proof (Hcap c3 H3).
      destruct (Z.leb_spec (len (c1 ++ c2 ++ c3)) max_length) as [Hle | _]; [| by left].
      rewrite !elem_of_add. intros [-> | [-> | Hs']]; [right .. | by left].
      * rewrite !len_app. rewrite !len_app in Hle. lia.
      * lia.
  - intros Hs. apply Hpairs in Hs as [Hs | Hs];
      [by apply not_elem_of_empty in Hs | exact Hs].
Qed.

End CombinationLengths.

(** C10, as stated, is refuted: capitalizing can lengthen a word.  With
    the words [ßa] and [ßb], whose lengths sum to 4, and [max_length = 4],
    the capitalized concatenation [SsaSsb] is emitted; it has 6
    characters, more than [max_length + 1]. *)
Lemma generate_combinations_exceeds_bound :
  ~ (forall words max_length s,
       s ∈ CaseMethod.generate_combinations_with CaseMethod.capitalize_sharp_s
             words max_length ->
       PyStr.len s <= max_length + 1).
Proof.
  intros Hbound.
  assert (Hin : "SsaSsb" ∈ CaseMethod.generate_combinations_with
                  CaseMethod.capitalize_sharp_s
                  [String CaseMethod.sharp_s "a"; String CaseMethod.sharp_s "b"] 4).
  { apply (bool_decide_unpack _). vm_compute. exact I. }
  apply Hbound in Hin. vm_compute in Hin. by apply Hin.
Qed.

(** C10, amended: the pair test bounds the sum of the two word lengths,
    before a separator is inserted and before the words are capitalized.
    Whatever [str.capitalize] does, if it lengthens none of the first 30
    words, as on ASCII words, every emitted string has length at most
    [max_length + 1]; and for two words whose lengths sum to [max_length]
    the three separator-joined forms are emitted with length
    [max_length + 1]. *)
Theorem generate_combinations_length_bound_fitting (capitalize : string -> string) :
  (forall words max_length s,
      (forall w, w ∈ take 30 words -> PyStr.len (capitalize w) <= PyStr.len w) ->
      s ∈ CaseMethod.generate_combinations_with capitalize words max_length ->
      PyStr.len s <= max_length + 1) /\
  (forall w1 w2 max_length,
      PyStr.len w1 + PyStr.len w2 = max_length ->
      Forall (fun sep =>
                w1 ++ sep ++ w2
                  ∈ CaseMethod.generate_combinations_with capitalize [w1; w2] max_length /\
                PyStr.len (w1 ++ sep ++ w2) = max_length + 1)
             ["_"; "."; "-"]).
Proof.
  split.
  - intros words max_length s. apply generate_combinations_with_len.
  - intros w1 w2 max_length Hsum.
    rewrite generate_combinations_with_pair.
    destruct (Z.leb_spec (PyStr.len w1 + PyStr.len w2) max_length); [| lia].
    repeat constructor; rewrite ?len_app; len_literals; try lia;
      rewrite !elem_of_add; tauto.
Qed.

Lemma generate_combinations_length_bound_fitting_witness :
  "sun_moon" ∈ Generator.generate_combinations ["sun"; "moon"] 7 /\
  PyStr.len "sun_moon" = 7 + 1 /\
  PyStr.len "SunMoon" <= 7 + 1.
Proof.
  pose proof (proj2 (generate_combinations_length_bound_fitting PyStr.capitalize)
                "sun" "moon" 7 eq_refl) as Hsep.
  apply Forall_cons in Hsep as [[Hin Hlen] _].
  split; [exact Hin | split; [exact Hlen |]].
  apply (proj1 (generate_combinations_length_bound_fitting PyStr.capitalize)
           ["sun"; "moon"] 7 "SunMoon").
  - apply Forall_forall. repeat constructor; vm_compute; discriminate.
  - apply (bool_decide_unpack _). vm_compute. exact I.
Defined.
